(** * LibCST-moonstones: the Spanish-keyword simple statements

    A shallow embedding of [libcst/_nodes/statement_spanish.py]: the four
    small-statement nodes [Aumenta] (raise), [Continúa] (continue),
    [Devuelve] (return) and [Rompe] (break), with their construction-time
    validation ([_validate]), their traversal ([_visit_and_replace_children])
    and their code generation ([_codegen_impl]).

    Python objects are immutable dataclasses here, so a node is a record.
    Raising is a [Result]; the mutable [CodegenState] is threaded explicitly,
    and the stateful visitor object is threaded through a traversal. *)

From stdpp Require Import base list strings.

Open Scope string_scope.

(** ** Exceptions and results *)

(** The exceptions the statement family can see: the validation error its
    own [_validate] raises, and whatever a child's method raises. *)
Inductive Exception : Type :=
| CSTValidationError (message : string)
| ChildError (message : string).

Inductive Result (A : Type) : Type :=
| Ok (value : A)
| Raise (e : Exception).
Arguments Ok {A} value.
Arguments Raise {A} e.

Definition Result_bind {A B : Type} (r : Result A) (k : A -> Result B) : Result B :=
  match r with
  | Ok a => k a
  | Raise e => Raise e
  end.

(** [if cond: raise e] as a statement. *)
Definition raise_if (cond : bool) (e : Exception) : Result unit :=
  if cond then Raise e else Ok tt.

Notation "r1 >> r2" := (Result_bind r1 (fun _ => r2))
  (at level 62, right associativity).

Definition succeeds {A : Type} (r : Result A) : Prop := exists a, r = Ok a.

Definition is_validation_error {A : Type} (r : Result A) : Prop :=
  exists message, r = Raise (CSTValidationError message).

(** ** Sentinels and formatting primitives *)

(** [libcst._maybe_sentinel.MaybeSentinel]: an enum with the one member
    [DEFAULT]. A slot of type [Union[T, MaybeSentinel]] is the sum
    [T + MaybeSentinel]: [inl v] is a concrete value, [inr DEFAULT] the
    sentinel, and [isinstance(x, MaybeSentinel)] is the test for [inr]. *)
Inductive MaybeSentinel : Type := DEFAULT.

Definition isinstance_MaybeSentinel {T : Type} (x : T + MaybeSentinel) : bool :=
  match x with
  | inr _ => true
  | inl _ => false
  end.

Inductive ExpressionPosition : Type := LEFT | RIGHT.

(** Modelled from the spec: [libcst._nodes.whitespace.SimpleWhitespace] is
    not part of the excerpt. Per section 4.1 a whitespace value wraps a
    literal run of characters and answers is-empty; it renders itself as
    that literal. *)
Record SimpleWhitespace : Type := mkSimpleWhitespace { value : string }.

Definition empty (w : SimpleWhitespace) : bool :=
  Nat.eqb (String.length (value w)) 0.

(** The test the three adjacency rules share:
    [not isinstance(ws, MaybeSentinel) and ws.empty]. *)
Definition has_no_gap (ws : SimpleWhitespace + MaybeSentinel) : bool :=
  negb (isinstance_MaybeSentinel ws)
  && match ws with
     | inl w => empty w
     | inr _ => false
     end.

(** ** Codegen state *)

(** Modelled from the spec: [libcst._nodes.internal.CodegenState] is not part
    of the excerpt. Per sections 2 and 4.4 it is a token buffer plus a
    position tracker; [add_token] appends one token, and
    [record_syntactic_position] records the start and end position of what
    its block emitted. A position is an index into the token buffer; the
    newest span comes first, and a block that raises records nothing. *)
Record CodegenState : Type := mkCodegenState {
  tokens : list string;
  positions : list (nat * nat);
}.

(** The text a state has accumulated: [str.join] of the tokens. *)
Definition code (state : CodegenState) : string :=
  foldr String.append "" (tokens state).

(** The state with [toks] appended to the buffer. *)
Definition emit (toks : list string) (state : CodegenState) : CodegenState :=
  {| tokens := tokens state ++ toks; positions := positions state |}.

(** A code generation step: it mutates the state, or raises. *)
Definition Codegen : Type := CodegenState -> Result CodegenState.

Definition pass : Codegen := fun state => Ok state.

Definition then_ (c1 c2 : Codegen) : Codegen :=
  fun state => Result_bind (c1 state) c2.

Notation "c1 ;; c2" := (then_ c1 c2) (at level 100, c2 at level 200, right associativity).

Definition add_token (tok : string) : Codegen :=
  fun state => Ok (emit [tok] state).

Definition record_syntactic_position (block : Codegen) : Codegen :=
  fun state =>
    let start := length (tokens state) in
    Result_bind (block state) (fun state' =>
      Ok {| tokens := tokens state';
            positions := (start, length (tokens state')) :: positions state' |}).

Definition SimpleWhitespace_codegen (w : SimpleWhitespace) : Codegen :=
  add_token (value w).

(** Modelled from the spec: [libcst._nodes.op.Semicolon] is not part of the
    excerpt. Per section 4.4 a concrete terminator owns the whitespace on both
    sides of it and renders verbatim. *)
Record Semicolon : Type := mkSemicolon {
  whitespace_before : SimpleWhitespace;
  whitespace_after : SimpleWhitespace;
}.

Definition Semicolon_tokens (s : Semicolon) : list string :=
  [value (whitespace_before s); ";"; value (whitespace_after s)].

Definition Semicolon_codegen (s : Semicolon) : Codegen :=
  SimpleWhitespace_codegen (whitespace_before s) ;;
  add_token ";" ;;
  SimpleWhitespace_codegen (whitespace_after s).

(** ** The expression capability *)

(** [libcst._nodes.expression.BaseExpression] as the statements use it
    (section 6 of the spec): a child renders itself into the state, and
    reports whether it may sit directly beside a word keyword. *)
Class BaseExpression (E : Type) : Type := {
  expression_codegen : E -> Codegen;
  _safe_to_use_with_word_operator : E -> ExpressionPosition -> bool;
}.

(** [libcst._nodes.expression.From] as [Aumenta] uses it: the slot before the
    [from] keyword, a whitespace of section 4.1 or the sentinel, and a render
    that takes the [default_space] to fall back on. *)
Class FromClause (F : Type) : Type := {
  whitespace_before_from : F -> SimpleWhitespace + MaybeSentinel;
  From_codegen : F -> string -> Codegen;
}.

(** ** The visitor protocol *)

(** Modelled from the spec: [libcst._nodes.internal.visit_optional] and
    [visit_sentinel], the visitor and [RemovalSentinel] are not part of the
    excerpt. Per section 4.3 an absent slot stays absent; otherwise the
    visitor is invoked on the child and answers with a node of the same
    capability or with the signal that removes the child. The visitor is a
    mutable object of type [V]: a visit returns it updated, and the order of
    the visits is the order of the calls. The parent and field name that the
    source passes along only feed the visitor's attribute callbacks and are
    left out. [visit] is [child.visit(visitor)]. *)
Inductive RemovalSentinel : Type := REMOVE.

Class Visitable (V T : Type) : Type :=
  visit : T -> V -> (T + RemovalSentinel) * V.

Definition visit_optional {V T : Type} `{!Visitable V T}
    (node : option T) (visitor : V) : option T * V :=
  match node with
  | None => (None, visitor)
  | Some child =>
      let '(result, visitor') := visit child visitor in
      (match result with
       | inr REMOVE => None
       | inl child' => Some child'
       end, visitor')
  end.

Definition visit_sentinel {V T : Type} `{!Visitable V T}
    (node : T + MaybeSentinel) (visitor : V) : (T + MaybeSentinel) * V :=
  match node with
  | inr _ => (inr DEFAULT, visitor)
  | inl child =>
      let '(result, visitor') := visit child visitor in
      (match result with
       | inr REMOVE => inr DEFAULT
       | inl child' => inl child'
       end, visitor')
  end.

(** ** Aumenta: [aumenta exc] or [aumenta exc from cause] *)

Module Aumenta.
Section Aumenta.
Context {E F : Type} `{!BaseExpression E} `{!FromClause F}.

Record t : Type := mk {
  exc : option E;
  cause : option F;
  whitespace_after_aumenta : SimpleWhitespace + MaybeSentinel;
  semicolon : Semicolon + MaybeSentinel;
}.

Definition _validate (self : t) : Result unit :=
  (* Validate correct construction *)
  raise_if
    match exc self, cause self with
    | None, Some _ => true
    | _, _ => false
    end
    (CSTValidationError "Must have an 'exc' when specifying 'clause'. on Aumenta.") >>
  (* Validate spacing between "aumenta" and "exc" *)
  match exc self with
  | Some exc =>
      raise_if
        (has_no_gap (whitespace_after_aumenta self)
         && negb (_safe_to_use_with_word_operator exc RIGHT))
        (CSTValidationError "Must have at least one space after 'aumenta'.")
  | None => Ok tt
  end >>
  (* Validate spacing between "exc" and "from" *)
  match exc self, cause self with
  | Some exc, Some cause =>
      raise_if
        (has_no_gap (whitespace_before_from cause)
         && negb (_safe_to_use_with_word_operator exc LEFT))
        (CSTValidationError "Must have at least one space before 'from'.")
  | _, _ => Ok tt
  end.

(** Modelled from the spec: the base node's constructor hook is not part of
    the excerpt. Per section 3 validation runs exactly once, at construction,
    and a failed validation prevents the node from coming into existence: the
    call [Aumenta(exc, cause, whitespace_after_aumenta, semicolon)] fills in
    the frozen dataclass, runs [_validate], and returns the node only if that
    returns. *)
Definition new (exc : option E) (cause : option F)
    (whitespace_after_aumenta : SimpleWhitespace + MaybeSentinel)
    (semicolon : Semicolon + MaybeSentinel) : Result t :=
  let self := mk exc cause whitespace_after_aumenta semicolon in
  _validate self >> Ok self.

Definition _visit_and_replace_children {V : Type}
    `{!Visitable V SimpleWhitespace} `{!Visitable V E}
    `{!Visitable V F} `{!Visitable V Semicolon}
    (self : t) (visitor : V) : Result t * V :=
  let '(whitespace_after_aumenta', visitor) :=
    visit_sentinel (whitespace_after_aumenta self) visitor in
  let '(exc', visitor) := visit_optional (exc self) visitor in
  let '(cause', visitor) := visit_optional (cause self) visitor in
  let '(semicolon', visitor) := visit_sentinel (semicolon self) visitor in
  (new exc' cause' whitespace_after_aumenta' semicolon', visitor).

Definition _codegen_impl (self : t) (default_semicolon : bool) : Codegen :=
  record_syntactic_position (
    add_token "aumenta" ;;
    match whitespace_after_aumenta self with
    | inr _ =>
        match exc self with
        | Some _ => add_token " "
        | None => pass
        end
    | inl whitespace_after_aumenta =>
        SimpleWhitespace_codegen whitespace_after_aumenta
    end ;;
    match exc self with
    | Some exc => expression_codegen exc
    | None => pass
    end ;;
    match cause self with
    | Some cause => From_codegen cause " "
    | None => pass
    end) ;;
  match semicolon self with
  | inr _ => if default_semicolon then add_token "; " else pass
  | inl semicolon => Semicolon_codegen semicolon
  end.

End Aumenta.
Arguments t : clear implicits.
End Aumenta.

(** ** Continúa: the [continúa] statement *)

(** Modelled from the spec: [Continúa] and [Rompe] define no [_validate] of
    their own and inherit the base node's, which is not part of the excerpt;
    the table of section 3 lists no invariant for them, so it accepts
    everything. *)
Definition CSTNode_validate : Result unit := Ok tt.

Module Continúa.

Record t : Type := mk {
  semicolon : Semicolon + MaybeSentinel;
}.

(** Modelled from the spec: the constructor call, validated as above. *)
Definition new (semicolon : Semicolon + MaybeSentinel) : Result t :=
  let self := mk semicolon in
  CSTNode_validate >> Ok self.

Definition _visit_and_replace_children {V : Type} `{!Visitable V Semicolon}
    (self : t) (visitor : V) : Result t * V :=
  let '(semicolon', visitor) := visit_sentinel (semicolon self) visitor in
  (new semicolon', visitor).

Definition _codegen_impl (self : t) (default_semicolon : bool) : Codegen :=
  record_syntactic_position (
    add_token "continúa") ;;
  match semicolon self with
  | inr _ => if default_semicolon then add_token "; " else pass
  | inl semicolon => Semicolon_codegen semicolon
  end.

End Continúa.

(** ** Devuelve: [devuelve] or [devuelve x] *)

Module Devuelve.
Section Devuelve.
Context {E : Type} `{!BaseExpression E}.

Record t : Type := mk {
  value : option E;
  whitespace_after_devuelve : SimpleWhitespace + MaybeSentinel;
  semicolon : Semicolon + MaybeSentinel;
}.

Definition _validate (self : t) : Result unit :=
  match value self with
  | Some value =>
      raise_if
        (has_no_gap (whitespace_after_devuelve self)
         && negb (_safe_to_use_with_word_operator value RIGHT))
        (CSTValidationError "Must have at least one space after 'devuelve'.")
  | None => Ok tt
  end.

(** Modelled from the spec: the constructor call [Devuelve(value,
    whitespace_after_devuelve, semicolon)], which runs [_validate] as every
    node's construction does (section 3). *)
Definition new (value : option E)
    (whitespace_after_devuelve : SimpleWhitespace + MaybeSentinel)
    (semicolon : Semicolon + MaybeSentinel) : Result t :=
  let self := mk value whitespace_after_devuelve semicolon in
  _validate self >> Ok self.

Definition _visit_and_replace_children {V : Type}
    `{!Visitable V SimpleWhitespace} `{!Visitable V E}
    `{!Visitable V Semicolon}
    (self : t) (visitor : V) : Result t * V :=
  let '(whitespace_after_devuelve', visitor) :=
    visit_sentinel (whitespace_after_devuelve self) visitor in
  let '(value', visitor) := visit_optional (value self) visitor in
  let '(semicolon', visitor) := visit_sentinel (semicolon self) visitor in
  (new value' whitespace_after_devuelve' semicolon', visitor).

Definition _codegen_impl (self : t) (default_semicolon : bool) : Codegen :=
  record_syntactic_position (
    add_token "devuelve" ;;
    match whitespace_after_devuelve self with
    | inr _ =>
        match value self with
        | Some _ => add_token " "
        | None => pass
        end
    | inl whitespace_after_devuelve =>
        SimpleWhitespace_codegen whitespace_after_devuelve
    end ;;
    match value self with
    | Some value => expression_codegen value
    | None => pass
    end) ;;
  match semicolon self with
  | inr _ => if default_semicolon then add_token "; " else pass
  | inl semicolon => Semicolon_codegen semicolon
  end.

End Devuelve.
Arguments t : clear implicits.
End Devuelve.

(** ** Rompe: the [rompe] statement *)

Module Rompe.

Record t : Type := mk {
  semicolon : Semicolon + MaybeSentinel;
}.

(** Modelled from the spec: the constructor call, validated as above. *)
Definition new (semicolon : Semicolon + MaybeSentinel) : Result t :=
  let self := mk semicolon in
  CSTNode_validate >> Ok self.

Definition _visit_and_replace_children {V : Type} `{!Visitable V Semicolon}
    (self : t) (visitor : V) : Result t * V :=
  let '(semicolon', visitor) := visit_sentinel (semicolon self) visitor in
  (new semicolon', visitor).

Definition _codegen_impl (self : t) (default_semicolon : bool) : Codegen :=
  record_syntactic_position (
    add_token "rompe") ;;
  match semicolon self with
  | inr _ => if default_semicolon then add_token "; " else pass
  | inl semicolon => Semicolon_codegen semicolon
  end.

End Rompe.

(** ** The statement family *)

(** The four variants as one closed sum, with the dispatch a call of
    [node._codegen_impl(state, default_semicolon)] performs. *)
Inductive Statement (E F : Type) : Type :=
| SAumenta (node : Aumenta.t E F)
| SContinúa (node : Continúa.t)
| SDevuelve (node : Devuelve.t E)
| SRompe (node : Rompe.t).
Arguments SAumenta {E F} node.
Arguments SContinúa {E F} node.
Arguments SDevuelve {E F} node.
Arguments SRompe {E F} node.

(** The same node with another terminator slot. *)
Definition Statement_with_semicolon {E F : Type} (s : Statement E F)
    (semicolon : Semicolon + MaybeSentinel) : Statement E F :=
  match s with
  | SAumenta n =>
      SAumenta (Aumenta.mk (Aumenta.exc n) (Aumenta.cause n)
                  (Aumenta.whitespace_after_aumenta n) semicolon)
  | SContinúa _ => SContinúa (Continúa.mk semicolon)
  | SDevuelve n =>
      SDevuelve (Devuelve.mk (Devuelve.value n)
                   (Devuelve.whitespace_after_devuelve n) semicolon)
  | SRompe _ => SRompe (Rompe.mk semicolon)
  end.

Definition Statement_validate {E F : Type} `{!BaseExpression E} `{!FromClause F}
    (s : Statement E F) : Result unit :=
  match s with
  | SAumenta n => Aumenta._validate n
  | SContinúa _ => CSTNode_validate
  | SDevuelve n => Devuelve._validate n
  | SRompe _ => CSTNode_validate
  end.

Definition Statement_codegen_impl {E F : Type} `{!BaseExpression E} `{!FromClause F}
    (s : Statement E F) (default_semicolon : bool) : Codegen :=
  match s with
  | SAumenta n => Aumenta._codegen_impl n default_semicolon
  | SContinúa n => Continúa._codegen_impl n default_semicolon
  | SDevuelve n => Devuelve._codegen_impl n default_semicolon
  | SRompe n => Rompe._codegen_impl n default_semicolon
  end.

(** ** What a render leaves behind, in the spec's words *)

(** Section 4.4, step 4: a sentinel terminator emits the caller-supplied
    default, ["; "] when [default_semicolon] is set and nothing otherwise; a
    concrete terminator emits itself. *)
Definition terminator_tokens (semicolon : Semicolon + MaybeSentinel)
    (default_semicolon : bool) : list string :=
  match semicolon with
  | inr _ => if default_semicolon then ["; "] else []
  | inl s => Semicolon_tokens s
  end.

(** Section 4.4, step 2: a sentinel whitespace slot emits one space when a
    child follows and nothing otherwise; a concrete value emits itself. *)
Definition gap_tokens (whitespace : SimpleWhitespace + MaybeSentinel)
    (child_follows : bool) : list string :=
  match whitespace with
  | inr _ => if child_follows then [" "] else []
  | inl w => [value w]
  end.

Definition present {A : Type} (child : option A) : bool :=
  match child with
  | Some _ => true
  | None => false
  end.

(** The state a statement's render ends in, given the state [body] its
    [record_syntactic_position] block ended in and the position [start] the
    block began at: the span is recorded, then the terminator is emitted. *)
Definition finish (start : nat) (semicolon : Semicolon + MaybeSentinel)
    (default_semicolon : bool) (body : CodegenState) : CodegenState :=
  {| tokens := tokens body ++ terminator_tokens semicolon default_semicolon;
     positions := (start, length (tokens body)) :: positions body |}.

(** The children are well behaved when their render returns, and when it only
    appends to the token buffer. *)
Definition returns (c : Codegen) : Prop :=
  forall state, succeeds (c state).

Definition append_only (c : Codegen) : Prop :=
  forall state state', c state = Ok state' -> tokens state `prefix_of` tokens state'.

(** ** A concrete implementer of the child capabilities *)

(** Statements are generic in their children. To run them on concrete inputs
    we use the smallest implementer of the capability: an atom that renders
    as one token and states its adjacency safety on each side (a bare name is
    unsafe on both sides, a parenthesised expression safe on both), and a
    [from] clause over it that renders its slot or the default space, the
    keyword, the whitespace after it and the item. *)
Module Sample.

Record Atom : Type := mkAtom {
  text : string;
  safe_left : bool;
  safe_right : bool;
}.

#[export] Instance Atom_expression : BaseExpression Atom := {|
  expression_codegen a := add_token (text a);
  _safe_to_use_with_word_operator a position :=
    match position with
    | LEFT => safe_left a
    | RIGHT => safe_right a
    end;
|}.

Record From : Type := mkFrom {
  item : Atom;
  before_from : SimpleWhitespace + MaybeSentinel;
  after_from : SimpleWhitespace;
}.

#[export] Instance From_clause : FromClause From := {|
  whitespace_before_from := before_from;
  From_codegen f default_space :=
    match before_from f with
    | inl w => SimpleWhitespace_codegen w
    | inr _ => add_token default_space
    end ;;
    record_syntactic_position (
      add_token "from" ;;
      SimpleWhitespace_codegen (after_from f) ;;
      expression_codegen (item f));
|}.

(** A visitor that counts its visits and removes every expression, keeping
    everything else. *)
#[export] Instance drop_expressions : Visitable nat Atom :=
  fun _ visits => (inr REMOVE, S visits).
#[export] Instance keep_from : Visitable nat From :=
  fun f visits => (inl f, S visits).
#[export] Instance keep_whitespace : Visitable nat SimpleWhitespace :=
  fun w visits => (inl w, S visits).
#[export] Instance keep_semicolon : Visitable nat Semicolon :=
  fun s visits => (inl s, S visits).

Definition name (x : string) : Atom := mkAtom x false false.
Definition parenthesized (x : string) : Atom := mkAtom x true true.
Definition ws (x : string) : SimpleWhitespace + MaybeSentinel :=
  inl (mkSimpleWhitespace x).
Definition from_ (before : SimpleWhitespace + MaybeSentinel) (x : string) : From :=
  mkFrom (name x) before (mkSimpleWhitespace " ").
Definition semi : Semicolon + MaybeSentinel :=
  inl (mkSemicolon (mkSimpleWhitespace "") (mkSimpleWhitespace " ")).
Definition fresh : CodegenState := mkCodegenState [] [].

End Sample.

(** ** Reading a statement and its output *)

Definition Statement_semicolon {E F : Type} (s : Statement E F)
    : Semicolon + MaybeSentinel :=
  match s with
  | SAumenta n => Aumenta.semicolon n
  | SContinúa n => Continúa.semicolon n
  | SDevuelve n => Devuelve.semicolon n
  | SRompe n => Rompe.semicolon n
  end.

(** The keyword token each [_codegen_impl] adds first. *)
Definition Statement_keyword {E F : Type} (s : Statement E F) : string :=
  match s with
  | SAumenta _ => "aumenta"
  | SContinúa _ => "continúa"
  | SDevuelve _ => "devuelve"
  | SRompe _ => "rompe"
  end.

(** The text of a run of tokens, as [code] joins them. *)
Definition text_of (toks : list string) : string :=
  foldr String.append "" toks.

(** The text a whitespace slot stands for when no child follows it, and the
    text of a terminator slot. *)
Definition whitespace_text (whitespace : SimpleWhitespace + MaybeSentinel) : string :=
  match whitespace with
  | inl w => value w
  | inr _ => ""
  end.

Definition terminator_text (semicolon : Semicolon + MaybeSentinel)
    (default_semicolon : bool) : string :=
  match semicolon with
  | inr _ => if default_semicolon then "; " else ""
  | inl s => value (whitespace_before s) +:+ ";" +:+ value (whitespace_after s)
  end.

(** The three rules of [Aumenta._validate] and the rule of
    [Devuelve._validate], as conditions on the constructor's arguments. *)
Definition Aumenta_invariant {E F : Type} `{!BaseExpression E} `{!FromClause F}
    (exc : option E) (cause : option F)
    (whitespace : SimpleWhitespace + MaybeSentinel) : Prop :=
  (is_Some cause -> is_Some exc)
  /\ (forall e w, exc = Some e -> whitespace = inl w -> empty w = true ->
        _safe_to_use_with_word_operator e RIGHT = true)
  /\ (forall e c w, exc = Some e -> cause = Some c ->
        whitespace_before_from c = inl w -> empty w = true ->
        _safe_to_use_with_word_operator e LEFT = true).

Definition Devuelve_invariant {E : Type} `{!BaseExpression E}
    (value : option E) (whitespace : SimpleWhitespace + MaybeSentinel) : Prop :=
  forall e w, value = Some e -> whitespace = inl w -> empty w = true ->
    _safe_to_use_with_word_operator e RIGHT = true.

(** A visitor keeps the children of type [T] when every visit answers with
    the child it was given, whatever the visitor's state. *)
Definition keeps {V : Type} (T : Type) `{!Visitable V T} : Prop :=
  forall (child : T) (visitor : V), fst (visit child visitor) = inl child.

(** A visitor for concrete runs: it keeps every child and logs what it was
    shown, in the order of the visits. *)
Module Logger.

#[export] Instance log_atom : Visitable (list string) Sample.Atom :=
  fun a log => (inl a, (log ++ [Sample.text a])%list).
#[export] Instance log_from : Visitable (list string) Sample.From :=
  fun f log => (inl f, (log ++ ["from"])%list).
#[export] Instance log_whitespace : Visitable (list string) SimpleWhitespace :=
  fun w log => (inl w, (log ++ [value w])%list).
#[export] Instance log_semicolon : Visitable (list string) Semicolon :=
  fun s log => (inl s, (log ++ [";"])%list).

End Logger.

(** A visitor for concrete runs that replaces every whitespace by the empty
    one and keeps everything else; its state counts the visits. *)
Module Stripper.

Inductive visits : Type := Visits (n : nat).

Definition next (v : visits) : visits :=
  match v with
  | Visits n => Visits (S n)
  end.

#[export] Instance strip_whitespace : Visitable visits SimpleWhitespace :=
  fun _ v => (inl (mkSimpleWhitespace ""), next v).
#[export] Instance keep_atom : Visitable visits Sample.Atom :=
  fun a v => (inl a, next v).
#[export] Instance keep_semicolon : Visitable visits Semicolon :=
  fun s v => (inl s, next v).

End Stripper.

(** * Properties *)

(** ** Running the renders *)

Lemma emit_emit (l1 l2 : list string) (state : CodegenState) :
  emit l2 (emit l1 state) = emit (l1 ++ l2) state.
Proof.
  unfold emit; simpl. f_equal. symmetry. apply app_assoc.
Qed.

Lemma Result_bind_assoc {A B C : Type} (r : Result A)
    (k1 : A -> Result B) (k2 : B -> Result C) :
  Result_bind (Result_bind r k1) k2 = Result_bind r (fun a => Result_bind (k1 a) k2).
Proof. destruct r; reflexivity. Qed.

Lemma Result_bind_ext {A B : Type} (r : Result A) (k1 k2 : A -> Result B) :
  (forall a, k1 a = k2 a) -> Result_bind r k1 = Result_bind r k2.
Proof. intros Hk. destruct r; simpl; auto. Qed.

Lemma Semicolon_codegen_run (s : Semicolon) (state : CodegenState) :
  Semicolon_codegen s state = Ok (emit (Semicolon_tokens s) state).
Proof.
  unfold Semicolon_codegen, SimpleWhitespace_codegen, then_, add_token. simpl.
  by rewrite !emit_emit.
Qed.

(** The terminator block every [_codegen_impl] ends with, run in the state
    [body] the recorded block ended in. *)
Lemma terminator_run (start : nat) (semicolon : Semicolon + MaybeSentinel)
    (default_semicolon : bool) (body : CodegenState) :
  match semicolon with
  | inr _ => if default_semicolon then add_token "; " else pass
  | inl semicolon => Semicolon_codegen semicolon
  end {| tokens := tokens body;
         positions := (start, length (tokens body)) :: positions body |}
  = Ok (finish start semicolon default_semicolon body).
Proof.
  unfold finish, terminator_tokens, Semicolon_tokens.
  destruct semicolon as [s | m]; [| destruct default_semicolon].
  - unfold Semicolon_codegen, SimpleWhitespace_codegen, then_, add_token, emit.
    simpl. by rewrite <- !app_assoc.
  - reflexivity.
  - unfold pass. by rewrite app_nil_r.
Qed.

Lemma record_then_terminator (block : Codegen)
    (semicolon : Semicolon + MaybeSentinel) (default_semicolon : bool)
    (state : CodegenState) :
  (record_syntactic_position block ;;
   match semicolon with
   | inr _ => if default_semicolon then add_token "; " else pass
   | inl semicolon => Semicolon_codegen semicolon
   end) state
  = Result_bind (block state) (fun body =>
      Ok (finish (length (tokens state)) semicolon default_semicolon body)).
Proof.
  unfold then_, record_syntactic_position.
  destruct (block state) as [body | e]; simpl; [| reflexivity].
  apply terminator_run.
Qed.

Section Renders.
Context {E F : Type} `{!BaseExpression E} `{!FromClause F}.

Lemma Aumenta_codegen_run (n : Aumenta.t E F) (default_semicolon : bool)
    (state : CodegenState) :
  Aumenta._codegen_impl n default_semicolon state =
  let gap := emit ("aumenta" :: gap_tokens (Aumenta.whitespace_after_aumenta n)
                                   (present (Aumenta.exc n))) state in
  Result_bind
    match Aumenta.exc n with
    | Some exc => expression_codegen exc gap
    | None => Ok gap
    end (fun after_exc =>
  Result_bind
    match Aumenta.cause n with
    | Some cause => From_codegen cause " " after_exc
    | None => Ok after_exc
    end (fun body =>
  Ok (finish (length (tokens state)) (Aumenta.semicolon n) default_semicolon body))).
Proof.
  unfold Aumenta._codegen_impl. rewrite record_then_terminator.
  unfold then_ at 1. simpl.
  set (slot := match Aumenta.whitespace_after_aumenta n with
               | inl w => SimpleWhitespace_codegen w
               | inr _ => match Aumenta.exc n with
                          | Some _ => add_token " "
                          | None => pass
                          end
               end).
  assert (Hslot : slot (emit ["aumenta"] state)
          = Ok (emit ("aumenta" :: gap_tokens (Aumenta.whitespace_after_aumenta n)
                                     (present (Aumenta.exc n))) state)).
  { subst slot. unfold gap_tokens, present, SimpleWhitespace_codegen, add_token, pass.
    destruct (Aumenta.whitespace_after_aumenta n), (Aumenta.exc n);
      rewrite ?emit_emit; reflexivity. }
  unfold then_ at 1. rewrite Hslot. simpl.
  unfold then_. rewrite Result_bind_assoc.
  destruct (Aumenta.exc n), (Aumenta.cause n); reflexivity.
Qed.

Lemma Devuelve_codegen_run (n : Devuelve.t E) (default_semicolon : bool)
    (state : CodegenState) :
  Devuelve._codegen_impl n default_semicolon state =
  let gap := emit ("devuelve" :: gap_tokens (Devuelve.whitespace_after_devuelve n)
                                    (present (Devuelve.value n))) state in
  Result_bind
    match Devuelve.value n with
    | Some value => expression_codegen value gap
    | None => Ok gap
    end (fun body =>
  Ok (finish (length (tokens state)) (Devuelve.semicolon n) default_semicolon body)).
Proof.
  unfold Devuelve._codegen_impl. rewrite record_then_terminator.
  unfold then_ at 1. simpl.
  set (slot := match Devuelve.whitespace_after_devuelve n with
               | inl w => SimpleWhitespace_codegen w
               | inr _ => match Devuelve.value n with
                          | Some _ => add_token " "
                          | None => pass
                          end
               end).
  assert (Hslot : slot (emit ["devuelve"] state)
          = Ok (emit ("devuelve" :: gap_tokens (Devuelve.whitespace_after_devuelve n)
                                      (present (Devuelve.value n))) state)).
  { subst slot. unfold gap_tokens, present, SimpleWhitespace_codegen, add_token, pass.
    destruct (Devuelve.whitespace_after_devuelve n), (Devuelve.value n);
      rewrite ?emit_emit; reflexivity. }
  unfold then_. rewrite Hslot. simpl.
  destruct (Devuelve.value n); reflexivity.
Qed.

End Renders.

Lemma Continua_codegen_run (n : Continúa.t) (default_semicolon : bool)
    (state : CodegenState) :
  Continúa._codegen_impl n default_semicolon state =
  Ok (finish (length (tokens state)) (Continúa.semicolon n) default_semicolon
        (emit ["continúa"] state)).
Proof.
  unfold Continúa._codegen_impl. by rewrite record_then_terminator.
Qed.

Lemma Rompe_codegen_run (n : Rompe.t) (default_semicolon : bool)
    (state : CodegenState) :
  Rompe._codegen_impl n default_semicolon state =
  Ok (finish (length (tokens state)) (Rompe.semicolon n) default_semicolon
        (emit ["rompe"] state)).
Proof.
  unfold Rompe._codegen_impl. by rewrite record_then_terminator.
Qed.

(** ** Construction-time validation *)

Section Validation.
Context {E F : Type} `{!BaseExpression E} `{!FromClause F}.

Lemma new_Ok_validate (exc : option E) (cause : option F)
    (whitespace : SimpleWhitespace + MaybeSentinel)
    (semicolon : Semicolon + MaybeSentinel) (node : Aumenta.t E F) :
  Aumenta.new exc cause whitespace semicolon = Ok node ->
  node = Aumenta.mk exc cause whitespace semicolon /\ Aumenta._validate node = Ok tt.
Proof.
  unfold Aumenta.new. simpl.
  destruct (Aumenta._validate _) as [[] | e] eqn:Hvalid; simpl; intros Hnew.
  - injection Hnew as <-. by split.
  - discriminate.
Qed.

Lemma validate_cause_needs_exc (node : Aumenta.t E F) :
  Aumenta._validate node = Ok tt ->
  Aumenta.exc node = None -> Aumenta.cause node = None.
Proof.
  unfold Aumenta._validate. intros Hvalid Hexc. rewrite Hexc in Hvalid.
  destruct (Aumenta.cause node); [discriminate | reflexivity].
Qed.

(** C3. Missing-dependency validation: constructing an [Aumenta] with a
    cause and no exc raises the validation error of the first rule, and every
    [Aumenta] a construction returns has an exc whenever it has a cause. *)
Theorem Aumenta_cause_requires_exc :
  (forall (cause : F) whitespace semicolon,
     Aumenta.new (E:=E) None (Some cause) whitespace semicolon
     = Raise (CSTValidationError
                "Must have an 'exc' when specifying 'clause'. on Aumenta."))
  /\ (forall exc cause whitespace semicolon (node : Aumenta.t E F),
        Aumenta.new exc cause whitespace semicolon = Ok node ->
        is_Some (Aumenta.cause node) -> is_Some (Aumenta.exc node)).
Proof.
  split.
  - intros cause whitespace semicolon. reflexivity.
  - intros exc cause whitespace semicolon node Hnew [c Hcause].
    apply new_Ok_validate in Hnew as [_ Hvalid].
    destruct (Aumenta.exc node) as [e |] eqn:Hexc; [by eexists |].
    rewrite (validate_cause_needs_exc node Hvalid Hexc) in Hcause.
    discriminate.
Qed.

(** C2, as amended. Adjacency after the keyword, for an expression that is
    not safe to the right of a word keyword. With an explicit empty
    whitespace, [Aumenta] and [Devuelve] raise their "after" error. With an
    explicit non-empty whitespace, [Devuelve] is constructed, and [Aumenta]
    is constructed provided the rule before [from] does not fire (no cause,
    or a sentinel or non-empty whitespace before [from], or an exc safe on
    its left). With the sentinel the "after" error is never raised, whatever
    the children, and [Devuelve] is always constructed. *)
Theorem gap_after_keyword :
  (forall (exc : E) (cause : option F) w semicolon,
     _safe_to_use_with_word_operator exc RIGHT = false ->
     (empty w = true ->
      Aumenta.new (Some exc) cause (inl w) semicolon
      = Raise (CSTValidationError "Must have at least one space after 'aumenta'."))
     /\ (empty w = false ->
         (forall c, cause = Some c ->
            has_no_gap (whitespace_before_from c)
            && negb (_safe_to_use_with_word_operator exc LEFT) = false) ->
         Aumenta.new (Some exc) cause (inl w) semicolon
         = Ok (Aumenta.mk (Some exc) cause (inl w) semicolon)))
  /\ (forall (exc : option E) (cause : option F) sentinel semicolon,
        Aumenta.new exc cause (inr sentinel) semicolon
        <> Raise (CSTValidationError "Must have at least one space after 'aumenta'."))
  /\ (forall (value : E) w semicolon,
        _safe_to_use_with_word_operator value RIGHT = false ->
        (empty w = true ->
         Devuelve.new (Some value) (inl w) semicolon
         = Raise (CSTValidationError "Must have at least one space after 'devuelve'."))
        /\ (empty w = false ->
            Devuelve.new (Some value) (inl w) semicolon
            = Ok (Devuelve.mk (Some value) (inl w) semicolon)))
  /\ (forall (value : option E) sentinel semicolon,
        Devuelve.new value (inr sentinel) semicolon
        = Ok (Devuelve.mk value (inr sentinel) semicolon)).
Proof.
  split; [| split; [| split]].
  - intros exc cause w semicolon Hright. split.
    + intros Hempty. unfold Aumenta.new, Aumenta._validate, has_no_gap. simpl.
      by rewrite Hempty, Hright.
    + intros Hempty Hfrom. unfold Aumenta.new, Aumenta._validate. simpl.
      unfold has_no_gap at 1. simpl. rewrite Hempty. simpl.
      destruct cause as [c |]; [| reflexivity].
      by rewrite (Hfrom c eq_refl).
  - intros exc cause sentinel semicolon.
    unfold Aumenta.new, Aumenta._validate. simpl.
    destruct exc as [e |], cause as [c |]; simpl; try discriminate.
    destruct (has_no_gap (whitespace_before_from c) && _); discriminate.
  - intros value w semicolon Hright. split.
    + intros Hempty. unfold Devuelve.new, Devuelve._validate, has_no_gap. simpl.
      by rewrite Hempty, Hright.
    + intros Hempty. unfold Devuelve.new, Devuelve._validate, has_no_gap. simpl.
      by rewrite Hempty.
  - intros value sentinel semicolon.
    unfold Devuelve.new, Devuelve._validate, has_no_gap. simpl.
    by destruct value.
Qed.

(** C7. Adjacency before [from], for an [Aumenta] with both exc and cause.
    When the cause's whitespace before [from] is explicit and empty and exc
    is not safe to the left of a word keyword, construction raises a
    validation error: the "before from" error, unless the rule after the
    keyword has already raised its own. When that whitespace is a sentinel or
    is not empty, the "before from" error is not raised. *)
Theorem gap_before_from (exc : E) (cause : F)
    (whitespace : SimpleWhitespace + MaybeSentinel)
    (semicolon : Semicolon + MaybeSentinel) :
  (forall w,
     whitespace_before_from cause = inl w -> empty w = true ->
     _safe_to_use_with_word_operator exc LEFT = false ->
     is_validation_error (Aumenta.new (Some exc) (Some cause) whitespace semicolon)
     /\ Aumenta.new (Some exc) (Some cause) whitespace semicolon
        = Raise (CSTValidationError
                   (if has_no_gap whitespace
                       && negb (_safe_to_use_with_word_operator exc RIGHT)
                    then "Must have at least one space after 'aumenta'."
                    else "Must have at least one space before 'from'.")))
  /\ ((whitespace_before_from cause = inr DEFAULT
       \/ exists w, whitespace_before_from cause = inl w /\ empty w = false) ->
      Aumenta.new (Some exc) (Some cause) whitespace semicolon
      <> Raise (CSTValidationError "Must have at least one space before 'from'.")).
Proof.
  split.
  - intros w Hslot Hempty Hleft.
    assert (Hnew : Aumenta.new (Some exc) (Some cause) whitespace semicolon
                   = Raise (CSTValidationError
                       (if has_no_gap whitespace
                           && negb (_safe_to_use_with_word_operator exc RIGHT)
                        then "Must have at least one space after 'aumenta'."
                        else "Must have at least one space before 'from'."))).
    { unfold Aumenta.new, Aumenta._validate. simpl.
      destruct (has_no_gap whitespace && _); simpl; [reflexivity |].
      unfold has_no_gap. rewrite Hslot. simpl. by rewrite Hempty, Hleft. }
    split; [| exact Hnew]. rewrite Hnew. by eexists.
  - intros Hslot. unfold Aumenta.new, Aumenta._validate. simpl.
    destruct (has_no_gap whitespace && _); simpl; [discriminate |].
    assert (Hgap : has_no_gap (whitespace_before_from cause) = false).
    { unfold has_no_gap.
      destruct Hslot as [-> | (w & -> & Hempty)]; simpl; [reflexivity | exact Hempty]. }
    rewrite Hgap. simpl. discriminate.
Qed.

End Validation.

(** ** Traversal *)

Section Traversal.
Context {E F V : Type} `{!BaseExpression E} `{!FromClause F}.
Context `{!Visitable V SimpleWhitespace} `{!Visitable V E}.
Context `{!Visitable V F} `{!Visitable V Semicolon}.

(** C6. [_visit_and_replace_children] visits the four slots in the order of
    the call and hands the visited values to the constructor, so the result
    is whatever [Aumenta.new] makes of them: a node it returns is the record
    of the visited slots and passes [_validate]; when the visited slots have
    a cause and no exc, the reconstruction raises the validation error of the
    first rule, and so it does when the visitor removes exc while it keeps
    the cause. The original node is a value and is not
    changed by any of this. *)
Theorem Aumenta_visit_revalidates (self : Aumenta.t E F) (visitor : V) :
  let whitespace' := visit_sentinel (Aumenta.whitespace_after_aumenta self) visitor in
  let exc' := visit_optional (Aumenta.exc self) (snd whitespace') in
  let cause' := visit_optional (Aumenta.cause self) (snd exc') in
  let semicolon' := visit_sentinel (Aumenta.semicolon self) (snd cause') in
  let rebuilt := Aumenta._visit_and_replace_children self visitor in
  rebuilt = (Aumenta.new (fst exc') (fst cause') (fst whitespace') (fst semicolon'),
             snd semicolon')
  /\ (forall node,
        fst rebuilt = Ok node ->
        node = Aumenta.mk (fst exc') (fst cause') (fst whitespace') (fst semicolon')
        /\ Aumenta._validate node = Ok tt)
  /\ (fst exc' = None -> is_Some (fst cause') ->
      fst rebuilt
      = Raise (CSTValidationError
                 "Must have an 'exc' when specifying 'clause'. on Aumenta."))
  /\ (forall exc cause cause',
        Aumenta.exc self = Some exc ->
        Aumenta.cause self = Some cause ->
        fst (visit exc (snd whitespace')) = inr REMOVE ->
        fst (visit cause (snd exc')) = inl cause' ->
        fst rebuilt
        = Raise (CSTValidationError
                   "Must have an 'exc' when specifying 'clause'. on Aumenta.")).
Proof.
  intros whitespace' exc' cause' semicolon' rebuilt.
  assert (Hrebuilt : rebuilt
          = (Aumenta.new (fst exc') (fst cause') (fst whitespace') (fst semicolon'),
             snd semicolon')).
  { subst rebuilt semicolon' cause' exc' whitespace'.
    unfold Aumenta._visit_and_replace_children.
    destruct (visit_sentinel (Aumenta.whitespace_after_aumenta self) visitor)
      as [w v1]; simpl.
    destruct (visit_optional (Aumenta.exc self) v1) as [e v2]; simpl.
    destruct (visit_optional (Aumenta.cause self) v2) as [c v3]; simpl.
    by destruct (visit_sentinel (Aumenta.semicolon self) v3) as [s v4]. }
  split; [exact Hrebuilt |]. rewrite Hrebuilt. simpl. split; [| split].
  - intros node Hnew. by apply new_Ok_validate.
  - intros Hexc' [c' Hcause']. by rewrite Hexc', Hcause'.
  - intros exc cause c' Hexc Hcause Hremoved Hkept.
    assert (Hexc' : fst exc' = None).
    { subst exc'. rewrite Hexc. unfold visit_optional.
      destruct (visit exc (snd whitespace')) as [[kept | []] v]; simpl in *;
        [discriminate | reflexivity]. }
    assert (Hcause' : fst cause' = Some c').
    { subst cause'. rewrite Hcause. unfold visit_optional.
      destruct (visit cause (snd exc')) as [[kept | []] v]; simpl in *;
        [congruence | discriminate]. }
    by rewrite Hexc', Hcause'.
Qed.

End Traversal.

(** ** Code generation *)

Section Codegen.
Context {E F : Type} `{!BaseExpression E} `{!FromClause F}.

(** C4. Default-fill of the whitespace slot. Where the slot after the keyword
    is a sentinel and the expression is present, the expression renders in
    the state the keyword and exactly one space were added to; where it is a
    sentinel and the expression is absent, nothing is added after the
    keyword; where it is a concrete whitespace, its value is added after the
    keyword as it is, with or without an expression. What follows the
    expression is spelled out: the cause (for [Aumenta]), the recorded span
    and the terminator. *)
Theorem whitespace_slot_default_fill :
  (forall (n : Aumenta.t E F) default_semicolon state,
     let rest after_exc :=
       Result_bind
         match Aumenta.cause n with
         | Some cause => From_codegen cause " " after_exc
         | None => Ok after_exc
         end (fun body =>
       Ok (finish (length (tokens state)) (Aumenta.semicolon n) default_semicolon body)) in
     Aumenta._codegen_impl n default_semicolon state =
     match Aumenta.whitespace_after_aumenta n, Aumenta.exc n with
     | inr _, Some exc =>
         Result_bind (expression_codegen exc (emit ["aumenta"; " "] state)) rest
     | inr _, None =>
         rest (emit ["aumenta"] state)
     | inl w, Some exc =>
         Result_bind (expression_codegen exc (emit ["aumenta"; value w] state)) rest
     | inl w, None =>
         rest (emit ["aumenta"; value w] state)
     end)
  /\ (forall (n : Devuelve.t E) default_semicolon state,
        let rest body :=
          Ok (finish (length (tokens state)) (Devuelve.semicolon n) default_semicolon body) in
        Devuelve._codegen_impl n default_semicolon state =
        match Devuelve.whitespace_after_devuelve n, Devuelve.value n with
        | inr _, Some value' =>
            Result_bind (expression_codegen value' (emit ["devuelve"; " "] state)) rest
        | inr _, None =>
            rest (emit ["devuelve"] state)
        | inl w, Some value' =>
            Result_bind (expression_codegen value' (emit ["devuelve"; value w] state)) rest
        | inl w, None =>
            rest (emit ["devuelve"; value w] state)
        end).
Proof.
  split.
  - intros n default_semicolon state rest. rewrite Aumenta_codegen_run.
    subst rest. simpl.
    destruct (Aumenta.whitespace_after_aumenta n) as [w | m], (Aumenta.exc n) as [e |];
      reflexivity.
  - intros n default_semicolon state rest. rewrite Devuelve_codegen_run.
    subst rest. simpl.
    destruct (Devuelve.whitespace_after_devuelve n) as [w | m],
             (Devuelve.value n) as [e |];
      reflexivity.
Qed.

Lemma Statement_codegen_finish (s : Statement E F) (state : CodegenState) :
  exists block : Codegen,
    forall semicolon default_semicolon,
      Statement_codegen_impl (Statement_with_semicolon s semicolon)
        default_semicolon state
      = Result_bind (block state) (fun body =>
          Ok (finish (length (tokens state)) semicolon default_semicolon body)).
Proof.
  destruct s as [n | n | n | n].
  - eexists (fun state' =>
      Result_bind _ (fun after_exc => match Aumenta.cause n with
                                      | Some cause => From_codegen cause " " after_exc
                                      | None => Ok after_exc
                                      end)).
    intros semicolon ds. simpl. rewrite Aumenta_codegen_run. simpl.
    rewrite Result_bind_assoc. reflexivity.
  - exists (fun state' => Ok (emit ["continúa"] state')).
    intros semicolon ds. simpl. by rewrite Continua_codegen_run.
  - eexists (fun state' => _).
    intros semicolon ds. simpl. rewrite Devuelve_codegen_run. simpl. reflexivity.
  - exists (fun state' => Ok (emit ["rompe"] state')).
    intros semicolon ds. simpl. by rewrite Rompe_codegen_run.
Qed.

Lemma Statement_codegen_returns (s : Statement E F) (default_semicolon : bool)
    (state : CodegenState) :
  (forall e : E, returns (expression_codegen e)) ->
  (forall (c : F) default_space, returns (From_codegen c default_space)) ->
  succeeds (Statement_codegen_impl s default_semicolon state).
Proof.
  intros Hexpr Hfrom. unfold succeeds.
  destruct s as [n | n | n | n]; simpl.
  - rewrite Aumenta_codegen_run. simpl. set (gap := emit _ state).
    assert (Hexc : exists after_exc,
              match Aumenta.exc n with
              | Some exc => expression_codegen exc gap
              | None => Ok gap
              end = Ok after_exc)
      by (destruct (Aumenta.exc n) as [e |]; [apply Hexpr | by eexists]).
    destruct Hexc as [after_exc ->]. simpl.
    destruct (Aumenta.cause n) as [c |]; [| by eexists].
    destruct (Hfrom c " " after_exc) as [body ->]. by eexists.
  - rewrite Continua_codegen_run. by eexists.
  - rewrite Devuelve_codegen_run. simpl. set (gap := emit _ state).
    destruct (Devuelve.value n) as [e |]; [| by eexists].
    destruct (Hexpr e gap) as [body ->]. by eexists.
  - rewrite Rompe_codegen_run. by eexists.
Qed.

(** C5. Terminator slot rendering, for every statement variant. When the
    children's renders return, the node with a sentinel terminator rendered
    with [default_semicolon = false] returns a state that ends where the
    node's recorded span ends: nothing is emitted after the body. Rendered
    with [default_semicolon = true] it returns that state with the one token
    ["; "] added. With a concrete [Semicolon] it returns what the render of
    that [Semicolon] makes of that state, its tokens being those of that
    state followed by the whitespace before, [;] and the whitespace after,
    whatever [default_semicolon] is. Without any assumption on the children,
    the three renders are related in the same way: the last two are the
    first followed by the token ["; "], or by the [Semicolon]'s render. *)
Theorem terminator_slot_rendering (s : Statement E F) (state : CodegenState) :
  let body := Statement_with_semicolon s (inr DEFAULT) in
  ((forall e : E, returns (expression_codegen e)) ->
   (forall (c : F) default_space, returns (From_codegen c default_space)) ->
   exists state',
     Statement_codegen_impl body false state = Ok state'
     /\ (exists spans,
          positions state'
          = (length (tokens state), length (tokens state')) :: spans)
     /\ Statement_codegen_impl body true state = Ok (emit ["; "] state')
     /\ (forall semicolon default_semicolon,
           Statement_codegen_impl (Statement_with_semicolon s (inl semicolon))
             default_semicolon state
           = Semicolon_codegen semicolon state'
           /\ exists state'',
                Statement_codegen_impl (Statement_with_semicolon s (inl semicolon))
                  default_semicolon state
                = Ok state''
                /\ tokens state''
                   = (tokens state' ++ Semicolon_tokens semicolon)%list))
  /\ (forall state',
        Statement_codegen_impl body false state = Ok state' ->
        exists spans,
          positions state'
          = (length (tokens state), length (tokens state')) :: spans)
  /\ Statement_codegen_impl body true state
     = Result_bind (Statement_codegen_impl body false state)
         (fun state' => Ok (emit ["; "] state'))
  /\ (forall semicolon default_semicolon,
        Statement_codegen_impl (Statement_with_semicolon s (inl semicolon))
          default_semicolon state
        = Result_bind (Statement_codegen_impl body false state)
            (Semicolon_codegen semicolon)
        /\ Statement_codegen_impl (Statement_with_semicolon s (inl semicolon))
             default_semicolon state
           = Result_bind (Statement_codegen_impl body false state)
               (fun state' => Ok (emit (Semicolon_tokens semicolon) state'))).
Proof.
  intros body. subst body.
  destruct (Statement_codegen_finish s state) as [block Hrun].
  assert (Hspan : forall state',
            Statement_codegen_impl (Statement_with_semicolon s (inr DEFAULT))
              false state = Ok state' ->
            exists spans,
              positions state'
              = (length (tokens state), length (tokens state')) :: spans).
  { intros state' Hbody. rewrite Hrun in Hbody.
    destruct (block state) as [b | e]; simpl in Hbody; [| discriminate].
    injection Hbody as <-. unfold finish. simpl.
    rewrite app_nil_r. by eexists. }
  assert (Hdefault :
            Statement_codegen_impl (Statement_with_semicolon s (inr DEFAULT))
              true state
            = Result_bind
                (Statement_codegen_impl (Statement_with_semicolon s (inr DEFAULT))
                   false state)
                (fun state' => Ok (emit ["; "] state'))).
  { rewrite !Hrun, Result_bind_assoc. apply Result_bind_ext. intros b.
    unfold finish, emit. simpl. by rewrite app_nil_r. }
  assert (Hconcrete : forall semicolon ds,
            Statement_codegen_impl (Statement_with_semicolon s (inl semicolon))
              ds state
            = Result_bind
                (Statement_codegen_impl (Statement_with_semicolon s (inr DEFAULT))
                   false state)
                (Semicolon_codegen semicolon)).
  { intros semicolon ds. rewrite !Hrun, Result_bind_assoc.
    apply Result_bind_ext. intros b.
    cbn [Result_bind]. rewrite Semicolon_codegen_run.
    unfold finish, emit. simpl. by rewrite app_nil_r. }
  split; [| split; [exact Hspan | split; [exact Hdefault |]]].
  - intros Hexpr Hfrom.
    destruct (Statement_codegen_returns (Statement_with_semicolon s (inr DEFAULT))
                false state Hexpr Hfrom) as [state' Hbody].
    exists state'. split; [exact Hbody |]. split; [by apply Hspan |].
    split; [by rewrite Hdefault, Hbody |].
    intros semicolon ds. rewrite Hconcrete, Hbody. cbn [Result_bind].
    split; [reflexivity |].
    rewrite Semicolon_codegen_run. by eexists.
  - intros semicolon ds. split; [apply Hconcrete |].
    rewrite Hconcrete. apply Result_bind_ext. intros b.
    apply Semicolon_codegen_run.
Qed.

(** C8. Rendering never fails: when the children's renders return, the
    render of every validated node of every variant returns, in every state
    and for either value of [default_semicolon]. (The proof does not need the
    validation: the render has no raise of its own.) *)
Theorem codegen_impl_never_raises :
  (forall e : E, returns (expression_codegen e)) ->
  (forall (c : F) default_space, returns (From_codegen c default_space)) ->
  forall (s : Statement E F) default_semicolon state,
    Statement_validate s = Ok tt ->
    succeeds (Statement_codegen_impl s default_semicolon state).
Proof.
  intros Hexpr Hfrom s ds state _. unfold succeeds.
  destruct s as [n | n | n | n]; simpl.
  - rewrite Aumenta_codegen_run. simpl.
    set (gap := emit _ state).
    assert (Hexc : exists after_exc,
              match Aumenta.exc n with
              | Some exc => expression_codegen exc gap
              | None => Ok gap
              end = Ok after_exc).
    { destruct (Aumenta.exc n) as [e |]; [apply Hexpr | by eexists]. }
    destruct Hexc as [after_exc ->]. simpl.
    assert (Hcause : exists body,
              match Aumenta.cause n with
              | Some cause => From_codegen cause " " after_exc
              | None => Ok after_exc
              end = Ok body).
    { destruct (Aumenta.cause n) as [c |]; [apply Hfrom | by eexists]. }
    destruct Hcause as [body ->]. simpl. by eexists.
  - rewrite Continua_codegen_run. by eexists.
  - rewrite Devuelve_codegen_run. simpl.
    set (gap := emit _ state).
    destruct (Devuelve.value n) as [e |]; [| by eexists].
    destruct (Hexpr e gap) as [body ->]. simpl. by eexists.
  - rewrite Rompe_codegen_run. by eexists.
Qed.

(** C9. Keyword-only substitution: a [Rompe] and a [Continúa] constructed
    with the same terminator slot render, in any state and for either value
    of [default_semicolon], to the same final state except for the keyword
    token: the old tokens, the keyword, then the same terminator tokens, and
    the same recorded span. *)
Theorem Rompe_Continua_differ_in_keyword_only
    (semicolon : Semicolon + MaybeSentinel) (default_semicolon : bool)
    (state : CodegenState) :
  let rendered keyword :=
    {| tokens := tokens state ++ keyword :: terminator_tokens semicolon default_semicolon;
       positions := (length (tokens state), S (length (tokens state)))
                    :: positions state |} in
  Rompe.new semicolon = Ok (Rompe.mk semicolon)
  /\ Continúa.new semicolon = Ok (Continúa.mk semicolon)
  /\ Rompe._codegen_impl (Rompe.mk semicolon) default_semicolon state
     = Ok (rendered "rompe")
  /\ Continúa._codegen_impl (Continúa.mk semicolon) default_semicolon state
     = Ok (rendered "continúa").
Proof.
  intros rendered. subst rendered.
  split; [reflexivity |]. split; [reflexivity |].
  rewrite Rompe_codegen_run, Continua_codegen_run.
  unfold finish, emit. simpl.
  rewrite <- !app_assoc, !length_app. simpl.
  rewrite !Nat.add_1_r. by split.
Qed.

(** C10. Rendering is append-only: when the children's renders only append
    to the token buffer, so does the render of every node of every variant,
    in every state and for either value of [default_semicolon]: the tokens
    present before the call are a prefix of the tokens after it. *)
Theorem codegen_impl_append_only :
  (forall e : E, append_only (expression_codegen e)) ->
  (forall (c : F) default_space, append_only (From_codegen c default_space)) ->
  forall (s : Statement E F) default_semicolon state state',
    Statement_codegen_impl s default_semicolon state = Ok state' ->
    tokens state `prefix_of` tokens state'.
Proof.
  intros Hexpr Hfrom s ds state state' Hrun.
  destruct s as [n | n | n | n]; simpl in Hrun.
  - rewrite Aumenta_codegen_run in Hrun. simpl in Hrun.
    set (gap := emit _ state) in Hrun.
    assert (Hgap : tokens state `prefix_of` tokens gap)
      by (subst gap; simpl; apply prefix_app_r; done).
    destruct (match Aumenta.exc n with
              | Some exc => expression_codegen exc gap
              | None => Ok gap
              end) as [after_exc | err] eqn:Hexc; simpl in Hrun; [| discriminate].
    assert (Hafter : tokens gap `prefix_of` tokens after_exc).
    { destruct (Aumenta.exc n) as [e |]; [by eapply Hexpr |].
      by injection Hexc as <-. }
    destruct (match Aumenta.cause n with
              | Some cause => From_codegen cause " " after_exc
              | None => Ok after_exc
              end) as [body | err] eqn:Hcause; simpl in Hrun; [| discriminate].
    assert (Hbody : tokens after_exc `prefix_of` tokens body).
    { destruct (Aumenta.cause n) as [c |]; [by eapply Hfrom |].
      by injection Hcause as <-. }
    injection Hrun as <-. simpl. apply prefix_app_r.
    by etrans; [| etrans].
  - rewrite Continua_codegen_run in Hrun. injection Hrun as <-. simpl.
    rewrite <- app_assoc. by apply prefix_app_r.
  - rewrite Devuelve_codegen_run in Hrun. simpl in Hrun.
    set (gap := emit _ state) in Hrun.
    assert (Hgap : tokens state `prefix_of` tokens gap)
      by (subst gap; simpl; apply prefix_app_r; done).
    destruct (match Devuelve.value n with
              | Some value' => expression_codegen value' gap
              | None => Ok gap
              end) as [body | err] eqn:Hvalue; simpl in Hrun; [| discriminate].
    assert (Hbody : tokens gap `prefix_of` tokens body).
    { destruct (Devuelve.value n) as [e |]; [by eapply Hexpr |].
      by injection Hvalue as <-. }
    injection Hrun as <-. simpl. apply prefix_app_r.
    by etrans.
  - rewrite Rompe_codegen_run in Hrun. injection Hrun as <-. simpl.
    rewrite <- app_assoc. by apply prefix_app_r.
Qed.

End Codegen.

(** ** Concrete runs *)

Import Sample.

(** [aumenta x from y;] built with sentinels everywhere and rendered as part
    of a statement line. *)
Example render_aumenta_from :
  Result_bind
    (Aumenta.new (Some (name "x")) (Some (from_ (inr DEFAULT) "y"))
       (inr DEFAULT) (inr DEFAULT))
    (fun node => Aumenta._codegen_impl node true fresh)
  = Ok {| tokens := ["aumenta"; " "; "x"; " "; "from"; " "; "y"; "; "];
          positions := [(0, 7); (4, 7)] |}.
Proof. vm_compute. reflexivity. Qed.

(** The text of a render that started in the empty state. *)
Definition rendered_text (r : Result CodegenState) : option string :=
  match r with
  | Ok state => Some (code state)
  | Raise _ => None
  end.

(** [devuelve] without a value gets no space; with one it gets exactly one;
    an explicit terminator follows as it is. *)
Example render_devuelve_text :
  rendered_text
    (Devuelve._codegen_impl (Devuelve.mk (E:=Atom) None (inr DEFAULT) (inr DEFAULT))
       false fresh) = Some "devuelve"
  /\ rendered_text
       (Devuelve._codegen_impl (Devuelve.mk (Some (name "True")) (inr DEFAULT)
                                  (inr DEFAULT)) false fresh)
     = Some "devuelve True"
  /\ rendered_text
       (Devuelve._codegen_impl (Devuelve.mk (Some (name "False")) (ws "  ") semi)
          true fresh)
     = Some "devuelve  False; ".
Proof. repeat split; vm_compute; reflexivity. Qed.

(** [rompe] and [continúa] in a statement line. *)
Example render_rompe_continua_text :
  rendered_text (Rompe._codegen_impl (Rompe.mk (inr DEFAULT)) true fresh)
  = Some "rompe; "
  /\ rendered_text (Continúa._codegen_impl (Continúa.mk (inr DEFAULT)) true fresh)
     = Some "continúa; ".
Proof. split; vm_compute; reflexivity. Qed.

Lemma Atom_returns (a : Atom) : returns (expression_codegen a).
Proof. intros state. by eexists. Qed.

Lemma From_returns (f : From) (default_space : string) :
  returns (From_codegen f default_space).
Proof.
  intros state. unfold succeeds. simpl.
  destruct (before_from f); by eexists.
Qed.

Lemma Atom_append_only (a : Atom) : append_only (expression_codegen a).
Proof.
  intros state state' Hrun. injection Hrun as <-. simpl.
  by apply prefix_app_r.
Qed.

Lemma From_append_only (f : From) (default_space : string) :
  append_only (From_codegen f default_space).
Proof.
  intros state state' Hrun. simpl in Hrun.
  destruct (before_from f); injection Hrun as <-; simpl;
    rewrite <- !app_assoc; by apply prefix_app_r.
Qed.

(** C3 at [aumenta x from y]: the node is constructed, has a cause, and so
    has an exc. *)
Lemma Aumenta_cause_requires_exc_witness :
  let node := Aumenta.mk (Some (name "x")) (Some (from_ (inr DEFAULT) "y"))
                (inr DEFAULT) (inr DEFAULT) in
  Aumenta.new (Some (name "x")) (Some (from_ (inr DEFAULT) "y"))
    (inr DEFAULT) (inr DEFAULT) = Ok node
  /\ is_Some (Aumenta.cause node)
  /\ is_Some (Aumenta.exc node).
Proof.
  intros node.
  assert (Hnew : Aumenta.new (Some (name "x")) (Some (from_ (inr DEFAULT) "y"))
                   (inr DEFAULT) (inr DEFAULT) = Ok node) by reflexivity.
  assert (Hcause : is_Some (Aumenta.cause node)) by (eexists; reflexivity).
  split; [exact Hnew |]. split; [exact Hcause |].
  exact (proj2 Aumenta_cause_requires_exc _ _ _ _ node Hnew Hcause).
Defined.

(** C2 as stated fails at [aumenta x from y] with no whitespace before
    [from]: [x] is unsafe on its right, the empty whitespace after the keyword
    is refused, and the non-empty one is refused too, by the rule before
    [from]. *)
Lemma nonempty_gap_after_aumenta_still_refused :
  _safe_to_use_with_word_operator (name "x") RIGHT = false
  /\ empty (mkSimpleWhitespace "") = true
  /\ empty (mkSimpleWhitespace " ") = false
  /\ Aumenta.new (Some (name "x")) (Some (from_ (ws "") "y")) (ws "") (inr DEFAULT)
     = Raise (CSTValidationError "Must have at least one space after 'aumenta'.")
  /\ Aumenta.new (Some (name "x")) (Some (from_ (ws "") "y")) (ws " ") (inr DEFAULT)
     = Raise (CSTValidationError "Must have at least one space before 'from'.").
Proof. repeat split. Qed.

(** C2 as amended, at [aumenta x from y] and [devuelve x]: the empty
    whitespace is refused, the single space is accepted. *)
Lemma gap_after_keyword_witness :
  (Aumenta.new (Some (name "x")) (Some (from_ (inr DEFAULT) "y")) (ws "") (inr DEFAULT)
   = Raise (CSTValidationError "Must have at least one space after 'aumenta'.")
   /\ Aumenta.new (Some (name "x")) (Some (from_ (inr DEFAULT) "y")) (ws " ") (inr DEFAULT)
      = Ok (Aumenta.mk (Some (name "x")) (Some (from_ (inr DEFAULT) "y")) (ws " ")
              (inr DEFAULT)))
  /\ (Devuelve.new (Some (name "x")) (ws "") semi
      = Raise (CSTValidationError "Must have at least one space after 'devuelve'.")
      /\ Devuelve.new (Some (name "x")) (ws " ") semi
         = Ok (Devuelve.mk (Some (name "x")) (ws " ") semi)).
Proof.
  pose proof (@gap_after_keyword Atom From _ _) as (Haumenta & _ & Hdevuelve & _).
  split.
  - destruct (Haumenta (name "x") (Some (from_ (inr DEFAULT) "y"))
                (mkSimpleWhitespace "") (inr DEFAULT) eq_refl) as [Hempty _].
    destruct (Haumenta (name "x") (Some (from_ (inr DEFAULT) "y"))
                (mkSimpleWhitespace " ") (inr DEFAULT) eq_refl) as [_ Hgap].
    split; [exact (Hempty eq_refl) |].
    apply (Hgap eq_refl). intros c Hc. injection Hc as <-. reflexivity.
  - destruct (Hdevuelve (name "x") (mkSimpleWhitespace "") semi eq_refl)
      as [Hempty _].
    destruct (Hdevuelve (name "x") (mkSimpleWhitespace " ") semi eq_refl)
      as [_ Hgap].
    split; [exact (Hempty eq_refl) | exact (Hgap eq_refl)].
Defined.

(** C7 at [aumenta x from y] with a space after the keyword and none before
    [from]. *)
Lemma gap_before_from_witness :
  whitespace_before_from (from_ (ws "") "y") = inl (mkSimpleWhitespace "")
  /\ _safe_to_use_with_word_operator (name "x") LEFT = false
  /\ Aumenta.new (Some (name "x")) (Some (from_ (ws "") "y")) (ws " ") (inr DEFAULT)
     = Raise (CSTValidationError "Must have at least one space before 'from'.").
Proof.
  split; [reflexivity |]. split; [reflexivity |].
  exact (proj2 (proj1 (gap_before_from (name "x") (from_ (ws "") "y") (ws " ")
                         (inr DEFAULT))
                  (mkSimpleWhitespace "") eq_refl eq_refl eq_refl)).
Defined.

(** C6 at [aumenta x from y], visited by the visitor that removes every
    expression. *)
Lemma Aumenta_visit_revalidates_witness :
  let self := Aumenta.mk (Some (name "x")) (Some (from_ (inr DEFAULT) "y"))
                (inr DEFAULT) (inr DEFAULT) in
  Aumenta._validate self = Ok tt
  /\ fst (Aumenta._visit_and_replace_children self 0)
     = Raise (CSTValidationError
                "Must have an 'exc' when specifying 'clause'. on Aumenta.").
Proof.
  intros self. split; [reflexivity |].
  exact (proj2 (proj2 (proj2 (Aumenta_visit_revalidates self 0)))
           (name "x") (from_ (inr DEFAULT) "y") (from_ (inr DEFAULT) "y")
           eq_refl eq_refl eq_refl eq_refl).
Defined.

(** C5 at [devuelve x]: the children return, the render with a sentinel
    terminator and no default ends with the recorded span, the default adds
    ["; "], and a concrete terminator adds its own three tokens. *)
Lemma terminator_slot_rendering_witness :
  exists state',
    Statement_codegen_impl (F:=From)
      (Statement_with_semicolon
         (SDevuelve (Devuelve.mk (Some (name "x")) (inr DEFAULT) semi)) (inr DEFAULT))
      false fresh = Ok state'
    /\ (exists spans,
         positions state' = (length (tokens fresh), length (tokens state')) :: spans)
    /\ Statement_codegen_impl (F:=From)
         (Statement_with_semicolon
            (SDevuelve (Devuelve.mk (Some (name "x")) (inr DEFAULT) semi)) (inr DEFAULT))
         true fresh = Ok (emit ["; "] state')
    /\ (forall semicolon default_semicolon,
          Statement_codegen_impl (F:=From)
            (Statement_with_semicolon
               (SDevuelve (Devuelve.mk (Some (name "x")) (inr DEFAULT) semi))
               (inl semicolon))
            default_semicolon fresh
          = Semicolon_codegen semicolon state'
          /\ exists state'',
               Statement_codegen_impl (F:=From)
                 (Statement_with_semicolon
                    (SDevuelve (Devuelve.mk (Some (name "x")) (inr DEFAULT) semi))
                    (inl semicolon))
                 default_semicolon fresh
               = Ok state''
               /\ tokens state''
                  = (tokens state' ++ Semicolon_tokens semicolon)%list).
Proof.
  exact (proj1 (terminator_slot_rendering (F:=From)
                  (SDevuelve (Devuelve.mk (Some (name "x")) (inr DEFAULT) semi))
                  fresh)
           Atom_returns From_returns).
Defined.

(** C8 at [aumenta x from y;]: validated, and its render returns. *)
Lemma codegen_impl_never_raises_witness :
  succeeds
    (Statement_codegen_impl
       (SAumenta (Aumenta.mk (Some (name "x")) (Some (from_ (inr DEFAULT) "y"))
                    (inr DEFAULT) semi))
       true fresh).
Proof.
  apply (codegen_impl_never_raises Atom_returns From_returns).
  reflexivity.
Defined.

(** C10 at [aumenta x from y;] rendered after [rompe; ]. *)
Lemma codegen_impl_append_only_witness :
  let node := SAumenta (Aumenta.mk (Some (name "x")) (Some (from_ (inr DEFAULT) "y"))
                          (inr DEFAULT) semi) in
  let state := mkCodegenState ["rompe"; "; "] [(0, 1)] in
  let state' :=
    mkCodegenState
      ["rompe"; "; "; "aumenta"; " "; "x"; " "; "from"; " "; "y"; ""; ";"; " "]
      [(2, 9); (6, 9); (0, 1)] in
  Statement_codegen_impl node false state = Ok state'
  /\ tokens state `prefix_of` tokens state'.
Proof.
  intros node state state'.
  assert (Hrun : Statement_codegen_impl node false state = Ok state') by reflexivity.
  split; [exact Hrun |].
  exact (codegen_impl_append_only Atom_append_only From_append_only
           node false state state' Hrun).
Defined.

(** * Further properties *)

(** ** Construction *)

Lemma empty_false_nonempty (w : SimpleWhitespace) :
  empty w = false -> value w <> "".
Proof.
  unfold empty. intros Hempty Hvalue. rewrite Hvalue in Hempty. discriminate.
Qed.

Section Construction.
Context {E F : Type} `{!BaseExpression E} `{!FromClause F}.

Lemma has_no_gap_true (whitespace : SimpleWhitespace + MaybeSentinel) :
  has_no_gap whitespace = true <->
  exists w, whitespace = inl w /\ empty w = true.
Proof.
  unfold has_no_gap. destruct whitespace as [w | m]; simpl; split.
  - intros Hempty. by exists w.
  - by intros (w' & [= <-] & Hempty).
  - discriminate.
  - by intros (w' & [=] & _).
Qed.

Lemma gap_rule_false (whitespace : SimpleWhitespace + MaybeSentinel) (safe : bool) :
  has_no_gap whitespace && negb safe = false <->
  forall w, whitespace = inl w -> empty w = true -> safe = true.
Proof.
  split.
  - intros Hrule w -> Hempty. unfold has_no_gap in Hrule. simpl in Hrule.
    rewrite Hempty in Hrule. by destruct safe.
  - intros Hsafe. destruct (has_no_gap whitespace) eqn:Hgap; [| reflexivity].
    apply has_no_gap_true in Hgap as (w & Hslot & Hempty).
    by rewrite (Hsafe w Hslot Hempty).
Qed.

Lemma Aumenta_validate_invariant (exc : option E) (cause : option F)
    (whitespace : SimpleWhitespace + MaybeSentinel)
    (semicolon : Semicolon + MaybeSentinel) :
  Aumenta._validate (Aumenta.mk exc cause whitespace semicolon) = Ok tt <->
  Aumenta_invariant exc cause whitespace.
Proof.
  unfold Aumenta._validate, Aumenta_invariant. simpl.
  destruct exc as [e |]; simpl.
  - destruct (has_no_gap whitespace
              && negb (_safe_to_use_with_word_operator e RIGHT)) eqn:Hrule2; simpl.
    + split; [discriminate |]. intros (_ & Hafter & _).
      assert (Hfalse : has_no_gap whitespace
                && negb (_safe_to_use_with_word_operator e RIGHT) = false)
        by (apply gap_rule_false; intros w; by apply Hafter).
      congruence.
    + rewrite gap_rule_false in Hrule2.
      destruct cause as [c |]; simpl.
      * destruct (has_no_gap (whitespace_before_from c)
                  && negb (_safe_to_use_with_word_operator e LEFT)) eqn:Hrule3; simpl.
        -- split; [discriminate |]. intros (_ & _ & Hbefore).
           assert (Hfalse : has_no_gap (whitespace_before_from c)
                     && negb (_safe_to_use_with_word_operator e LEFT) = false)
             by (apply gap_rule_false; intros w; by apply Hbefore).
           congruence.
        -- rewrite gap_rule_false in Hrule3.
           split; [intros _ | done].
           split; [by eexists |]. split.
           ++ intros e' w [= <-]. apply Hrule2.
           ++ intros e' c' w [= <-] [= <-]. apply Hrule3.
      * split; [intros _ | done].
        split; [by intros [c [=]] |]. split.
        -- intros e' w [= <-]. apply Hrule2.
        -- by intros e' c w _ [=].
  - destruct cause as [c |]; simpl.
    + split; [discriminate |]. intros (Hcause & _).
      destruct Hcause as [e He]; [by eexists | discriminate].
    + split; [intros _ | done].
      split; [by intros [c [=]] |]. split; [by intros e w [=] | by intros e c w [=]].
Qed.

Lemma Aumenta_validate_raises (node : Aumenta.t E F) (err : Exception) :
  Aumenta._validate node = Raise err -> exists message, err = CSTValidationError message.
Proof.
  unfold Aumenta._validate, raise_if.
  destruct (Aumenta.exc node) as [e |], (Aumenta.cause node) as [c |]; simpl;
    repeat match goal with
           | |- context [if ?b then _ else _] => destruct b; simpl
           end;
    intros [=]; by eexists.
Qed.

Lemma Devuelve_validate_invariant (v : option E)
    (whitespace : SimpleWhitespace + MaybeSentinel)
    (semicolon : Semicolon + MaybeSentinel) :
  Devuelve._validate (Devuelve.mk v whitespace semicolon) = Ok tt <->
  Devuelve_invariant v whitespace.
Proof.
  unfold Devuelve._validate, Devuelve_invariant. simpl.
  destruct v as [e |]; simpl.
  - destruct (has_no_gap whitespace
              && negb (_safe_to_use_with_word_operator e RIGHT)) eqn:Hrule; simpl.
    + split; [discriminate |]. intros Hinv.
      assert (Hfalse : has_no_gap whitespace
                && negb (_safe_to_use_with_word_operator e RIGHT) = false)
        by (apply gap_rule_false; intros w; by apply Hinv).
      congruence.
    + rewrite gap_rule_false in Hrule.
      split; [intros _ | done]. intros e' w [= <-]. apply Hrule.
  - split; [intros _ | done]. by intros e w [=].
Qed.

Lemma Aumenta_new_of_invariant (exc : option E) (cause : option F)
    (whitespace : SimpleWhitespace + MaybeSentinel)
    (semicolon : Semicolon + MaybeSentinel) :
  Aumenta_invariant exc cause whitespace ->
  Aumenta.new exc cause whitespace semicolon
  = Ok (Aumenta.mk exc cause whitespace semicolon).
Proof.
  intros Hinv. unfold Aumenta.new. simpl.
  by rewrite (proj2 (Aumenta_validate_invariant exc cause whitespace semicolon) Hinv).
Qed.

(** X1. Construction succeeds exactly when the rules hold, and fails only
    with a validation error: [Aumenta(...)] returns the node of its
    arguments if and only if a cause comes with an exc, an exc behind an
    explicit empty whitespace is safe on the right of a word keyword, and an
    exc before a cause with an explicit empty whitespace before [from] is
    safe on the left of one; [Devuelve(...)] returns it if and only if a
    value behind an explicit empty whitespace is safe on the right. The
    terminator plays no part. *)
Theorem construction_iff_invariant :
  (forall (exc : option E) (cause : option F) whitespace semicolon,
     (Aumenta.new exc cause whitespace semicolon
      = Ok (Aumenta.mk exc cause whitespace semicolon)
      <-> Aumenta_invariant exc cause whitespace)
     /\ (succeeds (Aumenta.new exc cause whitespace semicolon)
         \/ is_validation_error (Aumenta.new exc cause whitespace semicolon)))
  /\ (forall (v : option E) whitespace semicolon,
        (Devuelve.new v whitespace semicolon
         = Ok (Devuelve.mk v whitespace semicolon)
         <-> Devuelve_invariant v whitespace)
        /\ (succeeds (Devuelve.new v whitespace semicolon)
            \/ is_validation_error (Devuelve.new v whitespace semicolon))).
Proof.
  split.
  - intros exc cause whitespace semicolon.
    rewrite <- (Aumenta_validate_invariant exc cause whitespace semicolon).
    unfold Aumenta.new. simpl.
    destruct (Aumenta._validate _) as [[] | err] eqn:Hvalid; simpl.
    + split; [done |]. left. by eexists.
    + split; [split; discriminate |]. right.
      apply Aumenta_validate_raises in Hvalid as [message ->]. by eexists.
  - intros v whitespace semicolon.
    rewrite <- (Devuelve_validate_invariant v whitespace semicolon).
    unfold Devuelve.new. simpl.
    destruct (Devuelve._validate _) as [[] | err] eqn:Hvalid; simpl.
    + split; [done |]. left. by eexists.
    + split; [split; discriminate |]. right.
      unfold Devuelve._validate, raise_if in Hvalid. simpl in Hvalid.
      destruct v as [e |]; [| discriminate].
      destruct (has_no_gap whitespace && _); [| discriminate].
      injection Hvalid as <-. by eexists.
Qed.

(** X2. Which removals keep an [Aumenta] constructible: from the arguments of
    a successful construction, dropping the cause, or resetting the
    whitespace after the keyword to the sentinel, or changing the terminator,
    gives a successful construction again; dropping the exc does so exactly
    when there is no cause. *)
Theorem Aumenta_safe_removals (exc : option E) (cause : option F)
    (whitespace : SimpleWhitespace + MaybeSentinel)
    (semicolon semicolon' : Semicolon + MaybeSentinel) :
  succeeds (Aumenta.new exc cause whitespace semicolon) ->
  Aumenta.new exc cause whitespace semicolon'
  = Ok (Aumenta.mk exc cause whitespace semicolon')
  /\ Aumenta.new exc None whitespace semicolon'
     = Ok (Aumenta.mk exc None whitespace semicolon')
  /\ Aumenta.new exc cause (inr DEFAULT) semicolon'
     = Ok (Aumenta.mk exc cause (inr DEFAULT) semicolon')
  /\ (succeeds (Aumenta.new None cause whitespace semicolon') <-> cause = None).
Proof.
  intros [node Hnew].
  apply new_Ok_validate in Hnew as [-> Hvalid].
  apply Aumenta_validate_invariant in Hvalid as (Hcause & Hafter & Hbefore).
  split; [| split; [| split]].
  - by apply Aumenta_new_of_invariant.
  - apply Aumenta_new_of_invariant. split; [by intros [c [=]] |]. split; [done |].
    by intros e c w _ [=].
  - apply Aumenta_new_of_invariant. split; [done |].
    split; [by intros e w _ [=] | done].
  - split.
    + intros [node Hnew]. apply new_Ok_validate in Hnew as [-> Hvalid].
      exact (validate_cause_needs_exc _ Hvalid eq_refl).
    + intros ->. by eexists.
Qed.

End Construction.

(** ** Traversal of the other nodes *)

Section Visits.
Context {V T : Type} `{!Visitable V T}.

Lemma visit_optional_keeps (node : option T) (visitor : V) :
  keeps T -> fst (visit_optional node visitor) = node.
Proof.
  intros Hkeeps. destruct node as [child |]; [| reflexivity].
  unfold visit_optional. specialize (Hkeeps child visitor).
  destruct (visit child visitor) as [[child' | []] visitor']; simpl in *; congruence.
Qed.

Lemma visit_sentinel_keeps (node : T + MaybeSentinel) (visitor : V) :
  keeps T -> fst (visit_sentinel node visitor) = node.
Proof.
  intros Hkeeps. destruct node as [child | []]; [| reflexivity].
  unfold visit_sentinel. specialize (Hkeeps child visitor).
  destruct (visit child visitor) as [[child' | []] visitor']; simpl in *; congruence.
Qed.

End Visits.

Section MoreTraversal.
Context {E F V : Type} `{!BaseExpression E} `{!FromClause F}.
Context `{!Visitable V SimpleWhitespace} `{!Visitable V E}.
Context `{!Visitable V F} `{!Visitable V Semicolon}.

Lemma Aumenta_visit_run (self : Aumenta.t E F) (visitor : V) :
  let whitespace' := visit_sentinel (Aumenta.whitespace_after_aumenta self) visitor in
  let exc' := visit_optional (Aumenta.exc self) (snd whitespace') in
  let cause' := visit_optional (Aumenta.cause self) (snd exc') in
  let semicolon' := visit_sentinel (Aumenta.semicolon self) (snd cause') in
  Aumenta._visit_and_replace_children self visitor
  = (Aumenta.new (fst exc') (fst cause') (fst whitespace') (fst semicolon'),
     snd semicolon').
Proof.
  unfold Aumenta._visit_and_replace_children. simpl.
  destruct (visit_sentinel (Aumenta.whitespace_after_aumenta self) visitor)
    as [w v1]; simpl.
  destruct (visit_optional (Aumenta.exc self) v1) as [e v2]; simpl.
  destruct (visit_optional (Aumenta.cause self) v2) as [c v3]; simpl.
  by destruct (visit_sentinel (Aumenta.semicolon self) v3) as [s v4].
Qed.

Lemma Devuelve_visit_run (self : Devuelve.t E) (visitor : V) :
  let whitespace' := visit_sentinel (Devuelve.whitespace_after_devuelve self) visitor in
  let value' := visit_optional (Devuelve.value self) (snd whitespace') in
  let semicolon' := visit_sentinel (Devuelve.semicolon self) (snd value') in
  Devuelve._visit_and_replace_children self visitor
  = (Devuelve.new (fst value') (fst whitespace') (fst semicolon'), snd semicolon').
Proof.
  unfold Devuelve._visit_and_replace_children. simpl.
  destruct (visit_sentinel (Devuelve.whitespace_after_devuelve self) visitor)
    as [w v1]; simpl.
  destruct (visit_optional (Devuelve.value self) v1) as [e v2]; simpl.
  by destruct (visit_sentinel (Devuelve.semicolon self) v2) as [s v3].
Qed.

(** X3. When every visit answers, with a node or with the removal signal,
    [Devuelve._visit_and_replace_children] visits the whitespace, then the
    value, then the terminator, each with the visitor the previous visit
    left, and hands the results to the constructor: a node it returns is the
    record of the visited slots and passes [_validate], and when the visits
    leave an explicit empty whitespace before a value that is not safe on the
    right of a word keyword, as when the visitor empties the whitespace and
    keeps such a value, the reconstruction raises the "after devuelve"
    validation error. *)
Theorem Devuelve_visit_rebuilds (self : Devuelve.t E) (visitor : V) :
  let whitespace' := visit_sentinel (Devuelve.whitespace_after_devuelve self) visitor in
  let value' := visit_optional (Devuelve.value self) (snd whitespace') in
  let semicolon' := visit_sentinel (Devuelve.semicolon self) (snd value') in
  let rebuilt := Devuelve._visit_and_replace_children self visitor in
  rebuilt = (Devuelve.new (fst value') (fst whitespace') (fst semicolon'),
             snd semicolon')
  /\ (forall node,
        fst rebuilt = Ok node ->
        node = Devuelve.mk (fst value') (fst whitespace') (fst semicolon')
        /\ Devuelve._validate node = Ok tt)
  /\ (forall e w,
        fst value' = Some e -> fst whitespace' = inl w -> empty w = true ->
        _safe_to_use_with_word_operator e RIGHT = false ->
        fst rebuilt
        = Raise (CSTValidationError "Must have at least one space after 'devuelve'."))
  /\ (forall w w' e e',
        Devuelve.whitespace_after_devuelve self = inl w ->
        Devuelve.value self = Some e ->
        fst (visit w visitor) = inl w' -> empty w' = true ->
        fst (visit e (snd whitespace')) = inl e' ->
        _safe_to_use_with_word_operator e' RIGHT = false ->
        fst rebuilt
        = Raise (CSTValidationError "Must have at least one space after 'devuelve'.")).
Proof.
  intros whitespace' value' semicolon' rebuilt.
  assert (Hrebuilt : rebuilt
          = (Devuelve.new (fst value') (fst whitespace') (fst semicolon'),
             snd semicolon')) by apply Devuelve_visit_run.
  assert (Hraise : forall e w,
            fst value' = Some e -> fst whitespace' = inl w -> empty w = true ->
            _safe_to_use_with_word_operator e RIGHT = false ->
            fst rebuilt
            = Raise (CSTValidationError
                       "Must have at least one space after 'devuelve'.")).
  { intros e w Hvalue Hslot Hempty Hright. rewrite Hrebuilt. simpl.
    rewrite Hvalue, Hslot.
    unfold Devuelve.new, Devuelve._validate, has_no_gap. simpl.
    by rewrite Hempty, Hright. }
  split; [exact Hrebuilt |]. split; [| split; [exact Hraise |]].
  - rewrite Hrebuilt. simpl. intros node Hnew.
    unfold Devuelve.new in Hnew. simpl in Hnew.
    destruct (Devuelve._validate _) as [[] | err] eqn:Hvalid; [| discriminate].
    injection Hnew as <-. by split.
  - intros w w' e e' Hslot Hvalue Hstripped Hempty Hkept Hright.
    apply (Hraise e' w'); [| | exact Hempty | exact Hright].
    + subst value'. rewrite Hvalue. unfold visit_optional.
      destruct (visit e (snd whitespace')) as [[kept | []] v]; simpl in *;
        [congruence | discriminate].
    + subst whitespace'. rewrite Hslot. unfold visit_sentinel.
      destruct (visit w visitor) as [[kept | []] v]; simpl in *;
        [congruence | discriminate].
Qed.

(** X5. A visitor that keeps every child it is shown gives back the node it
    was given: for a constructed [Aumenta] or [Devuelve], and for any
    [Continúa] or [Rompe], the reconstruction returns the same node. *)
Theorem visit_keeping_children_is_identity (visitor : V) :
  keeps (V:=V) SimpleWhitespace -> keeps (V:=V) E ->
  keeps (V:=V) F -> keeps (V:=V) Semicolon ->
  (forall self : Aumenta.t E F,
     Aumenta._validate self = Ok tt ->
     fst (Aumenta._visit_and_replace_children self visitor) = Ok self)
  /\ (forall self : Devuelve.t E,
        Devuelve._validate self = Ok tt ->
        fst (Devuelve._visit_and_replace_children self visitor) = Ok self)
  /\ (forall self : Continúa.t,
        fst (Continúa._visit_and_replace_children self visitor) = Ok self)
  /\ (forall self : Rompe.t,
        fst (Rompe._visit_and_replace_children self visitor) = Ok self).
Proof.
  intros Hwhitespace Hexpr Hfrom Hsemicolon. split; [| split; [| split]].
  - intros self Hvalid. rewrite Aumenta_visit_run. simpl.
    rewrite !visit_optional_keeps, !visit_sentinel_keeps by done.
    destruct self as [e c w s]. unfold Aumenta.new. simpl in *.
    by rewrite Hvalid.
  - intros self Hvalid. rewrite Devuelve_visit_run. simpl.
    rewrite !visit_optional_keeps, !visit_sentinel_keeps by done.
    destruct self as [e w s]. unfold Devuelve.new. simpl in *.
    by rewrite Hvalid.
  - intros [s]. unfold Continúa._visit_and_replace_children. simpl.
    pose proof (visit_sentinel_keeps s visitor Hsemicolon) as Hkept.
    destruct (visit_sentinel s visitor) as [s' v']. simpl in *. by subst.
  - intros [s]. unfold Rompe._visit_and_replace_children. simpl.
    pose proof (visit_sentinel_keeps s visitor Hsemicolon) as Hkept.
    destruct (visit_sentinel s visitor) as [s' v']. simpl in *. by subst.
Qed.

End MoreTraversal.

(** ** What the renders emit *)

Lemma String_append_assoc (s1 s2 s3 : string) :
  (s1 +:+ s2) +:+ s3 = s1 +:+ (s2 +:+ s3).
Proof.
  induction s1 as [| c s1 IH]; [reflexivity |].
  change (String c ((s1 +:+ s2) +:+ s3) = String c (s1 +:+ (s2 +:+ s3))).
  by rewrite IH.
Qed.

Lemma String_append_nil_r (s : string) : s +:+ "" = s.
Proof.
  induction s as [| c s IH]; [reflexivity |].
  change (String c (s +:+ "") = String c s). by rewrite IH.
Qed.

Lemma text_of_app (l1 l2 : list string) :
  text_of (l1 ++ l2) = text_of l1 +:+ text_of l2.
Proof.
  induction l1 as [| tok l1 IH]; [reflexivity |].
  change (tok +:+ text_of (l1 ++ l2) = (tok +:+ text_of l1) +:+ text_of l2).
  by rewrite IH, String_append_assoc.
Qed.

Lemma text_of_singleton (tok : string) : text_of [tok] = tok.
Proof. apply String_append_nil_r. Qed.

Lemma code_emit (toks : list string) (state : CodegenState) :
  code (emit toks state) = code state +:+ text_of toks.
Proof. apply text_of_app. Qed.

Lemma terminator_tokens_text (semicolon : Semicolon + MaybeSentinel)
    (default_semicolon : bool) :
  text_of (terminator_tokens semicolon default_semicolon)
  = terminator_text semicolon default_semicolon.
Proof.
  destruct semicolon as [s | m]; [| by destruct default_semicolon].
  change (value (whitespace_before s) +:+ ";" +:+ text_of [value (whitespace_after s)]
          = value (whitespace_before s) +:+ ";" +:+ value (whitespace_after s)).
  by rewrite text_of_singleton.
Qed.

Lemma code_finish (start : nat) (semicolon : Semicolon + MaybeSentinel)
    (default_semicolon : bool) (body : CodegenState) :
  code (finish start semicolon default_semicolon body)
  = code body +:+ terminator_text semicolon default_semicolon.
Proof.
  rewrite <- terminator_tokens_text. apply text_of_app.
Qed.

Section Emitted.
Context {E F : Type} `{!BaseExpression E} `{!FromClause F}.

Lemma Statement_with_own_semicolon (s : Statement E F) :
  Statement_with_semicolon s (Statement_semicolon s) = s.
Proof. by destruct s as [[] | [] | [] | []]. Qed.

(** X6. The keyword is never glued to an expression that cannot stand it: in
    every constructed [Aumenta] or [Devuelve] with an expression, the render
    adds the keyword and one more token, then renders the expression; that
    token is the single space for a sentinel slot and the slot's own value
    otherwise, and it is not the empty string unless the expression is safe
    on the right of a word keyword. *)
Theorem keyword_never_glued_to_unsafe_expression :
  (forall (e : E) (cause : option F) whitespace semicolon node
          default_semicolon state,
     Aumenta.new (Some e) cause whitespace semicolon = Ok node ->
     exists gap,
       gap = match whitespace with inl w => value w | inr _ => " " end
       /\ (_safe_to_use_with_word_operator e RIGHT = false -> gap <> "")
       /\ Aumenta._codegen_impl node default_semicolon state
          = Result_bind (expression_codegen e (emit ["aumenta"; gap] state))
              (fun after_exc =>
                 Result_bind
                   match cause with
                   | Some c => From_codegen c " " after_exc
                   | None => Ok after_exc
                   end (fun body =>
                 Ok (finish (length (tokens state)) semicolon default_semicolon body))))
  /\ (forall (e : E) whitespace semicolon node default_semicolon state,
        Devuelve.new (Some e) whitespace semicolon = Ok node ->
        exists gap,
          gap = match whitespace with inl w => value w | inr _ => " " end
          /\ (_safe_to_use_with_word_operator e RIGHT = false -> gap <> "")
          /\ Devuelve._codegen_impl node default_semicolon state
             = Result_bind (expression_codegen e (emit ["devuelve"; gap] state))
                 (fun body =>
                    Ok (finish (length (tokens state)) semicolon default_semicolon body))).
Proof.
  split.
  - intros e cause whitespace semicolon node ds state Hnew.
    apply new_Ok_validate in Hnew as [-> Hvalid].
    apply Aumenta_validate_invariant in Hvalid as (_ & Hafter & _).
    eexists. split; [reflexivity |]. split.
    + intros Hright. destruct whitespace as [w | m]; [| discriminate].
      apply empty_false_nonempty.
      destruct (empty w) eqn:Hempty; [| reflexivity].
      rewrite (Hafter e w eq_refl eq_refl Hempty) in Hright. discriminate.
    + rewrite Aumenta_codegen_run. simpl.
      by destruct whitespace as [w | m].
  - intros e whitespace semicolon node ds state Hnew.
    unfold Devuelve.new in Hnew. simpl in Hnew.
    destruct (Devuelve._validate _) as [[] | err] eqn:Hvalid; [| discriminate].
    injection Hnew as <-.
    apply Devuelve_validate_invariant in Hvalid.
    eexists. split; [reflexivity |]. split.
    + intros Hright. destruct whitespace as [w | m]; [| discriminate].
      apply empty_false_nonempty.
      destruct (empty w) eqn:Hempty; [| reflexivity].
      rewrite (Hvalid e w eq_refl eq_refl Hempty) in Hright. discriminate.
    + rewrite Devuelve_codegen_run. simpl.
      by destruct whitespace as [w | m].
Qed.

(** X7. A [from] clause is never rendered without an expression before it: a
    constructed [Aumenta] without exc has no cause, so its render calls no
    child and cannot raise. It adds the keyword, the value of an explicit
    whitespace slot if there is one, records the span and adds the
    terminator. *)
Theorem bare_Aumenta_renders_alone (cause : option F)
    (whitespace : SimpleWhitespace + MaybeSentinel)
    (semicolon : Semicolon + MaybeSentinel) (node : Aumenta.t E F)
    (default_semicolon : bool) (state : CodegenState) :
  Aumenta.new None cause whitespace semicolon = Ok node ->
  cause = None
  /\ Aumenta._codegen_impl node default_semicolon state
     = Ok (finish (length (tokens state)) semicolon default_semicolon
             (emit ("aumenta" :: match whitespace with
                                 | inl w => [value w]
                                 | inr _ => []
                                 end) state)).
Proof.
  intros Hnew. apply new_Ok_validate in Hnew as [-> Hvalid].
  pose proof (validate_cause_needs_exc _ Hvalid eq_refl) as Hcause.
  simpl in Hcause. subst cause. split; [reflexivity |].
  rewrite Aumenta_codegen_run. simpl. by destruct whitespace.
Qed.

Lemma Statement_codegen_body (s : Statement E F) (state : CodegenState) :
  (forall e : E, append_only (expression_codegen e)) ->
  (forall (c : F) default_space, append_only (From_codegen c default_space)) ->
  exists (gap : list string) (children : Codegen),
    append_only children
    /\ forall default_semicolon,
         Statement_codegen_impl s default_semicolon state
         = Result_bind (children (emit (Statement_keyword s :: gap) state))
             (fun body =>
                Ok (finish (length (tokens state)) (Statement_semicolon s)
                      default_semicolon body)).
Proof.
  intros Hexpr Hfrom. destruct s as [n | n | n | n]; simpl.
  - exists (gap_tokens (Aumenta.whitespace_after_aumenta n) (present (Aumenta.exc n))),
      (fun gap =>
         Result_bind match Aumenta.exc n with
                     | Some exc => expression_codegen exc gap
                     | None => Ok gap
                     end (fun after_exc =>
                            match Aumenta.cause n with
                            | Some cause => From_codegen cause " " after_exc
                            | None => Ok after_exc
                            end)).
    split.
    + intros gap body Hrun.
      destruct (match Aumenta.exc n with
                | Some exc => expression_codegen exc gap
                | None => Ok gap
                end) as [after_exc | err] eqn:Hexc; simpl in Hrun; [| discriminate].
      assert (Hafter : tokens gap `prefix_of` tokens after_exc).
      { destruct (Aumenta.exc n) as [e |]; [by eapply Hexpr | by injection Hexc as <-]. }
      etrans; [exact Hafter |].
      destruct (Aumenta.cause n) as [c |]; [by eapply Hfrom | by injection Hrun as <-].
    + intros ds. rewrite Aumenta_codegen_run. simpl.
      by rewrite Result_bind_assoc.
  - exists [], pass. split; [by intros st st' [= <-] |].
    intros ds. by rewrite Continua_codegen_run.
  - exists (gap_tokens (Devuelve.whitespace_after_devuelve n)
              (present (Devuelve.value n))),
      (fun gap => match Devuelve.value n with
                  | Some value' => expression_codegen value' gap
                  | None => Ok gap
                  end).
    split.
    + intros gap body Hrun.
      destruct (Devuelve.value n) as [e |]; [by eapply Hexpr | by injection Hrun as <-].
    + intros ds. by rewrite Devuelve_codegen_run.
  - exists [], pass. split; [by intros st st' [= <-] |].
    intros ds. by rewrite Rompe_codegen_run.
Qed.

(** X8. Every render starts with its keyword: when the children's renders
    only append, the tokens after a statement's render are the tokens before
    it, then the statement's keyword, then the rest. *)
Theorem render_starts_with_keyword :
  (forall e : E, append_only (expression_codegen e)) ->
  (forall (c : F) default_space, append_only (From_codegen c default_space)) ->
  forall (s : Statement E F) default_semicolon state state',
    Statement_codegen_impl s default_semicolon state = Ok state' ->
    exists rest, tokens state' = (tokens state ++ Statement_keyword s :: rest)%list.
Proof.
  intros Hexpr Hfrom s ds state state' Hrun.
  destruct (Statement_codegen_body s state Hexpr Hfrom)
    as (gap & children & Hchildren & Hbody).
  rewrite Hbody in Hrun.
  destruct (children _) as [body | err] eqn:Hblock; simpl in Hrun; [| discriminate].
  injection Hrun as <-.
  destruct (Hchildren _ _ Hblock) as [more Hmore]. simpl in Hmore.
  exists (gap ++ more ++ terminator_tokens (Statement_semicolon s) ds)%list.
  simpl. rewrite Hmore. by rewrite <- !app_assoc.
Qed.

(** X9. The terminator lies outside the node's span and ends the output: after
    a render, the tokens are some body followed by the terminator's tokens,
    and the span from where the render began to the end of that body is among
    the recorded spans. *)
Theorem span_excludes_terminator (s : Statement E F) (default_semicolon : bool)
    (state state' : CodegenState) :
  Statement_codegen_impl s default_semicolon state = Ok state' ->
  exists body,
    tokens state'
    = (body ++ terminator_tokens (Statement_semicolon s) default_semicolon)%list
    /\ (length (tokens state), length body) ∈ positions state'.
Proof.
  intros Hrun. rewrite <- (Statement_with_own_semicolon s) in Hrun.
  destruct (Statement_codegen_finish s state) as [block Hblock].
  rewrite Hblock in Hrun.
  destruct (block state) as [body | err]; simpl in Hrun; [| discriminate].
  injection Hrun as <-. exists (tokens body). split; [reflexivity |].
  simpl. apply list_elem_of_here.
Qed.

End Emitted.

(** X10. The text of the statements that have no child to render: [rompe] and
    [continúa] add their keyword and the terminator's text to the code, and a
    [devuelve] without a value adds the keyword, the text of its whitespace
    slot (none for the sentinel) and the terminator's text; so for such a
    [devuelve] the sentinel and an explicit empty whitespace give the same
    code. *)
Theorem text_of_childless_statements {E : Type} `{!BaseExpression E}
    (whitespace : SimpleWhitespace + MaybeSentinel)
    (semicolon : Semicolon + MaybeSentinel) (default_semicolon : bool)
    (state : CodegenState) :
  (exists state',
     Rompe._codegen_impl (Rompe.mk semicolon) default_semicolon state = Ok state'
     /\ code state'
        = code state +:+ "rompe" +:+ terminator_text semicolon default_semicolon)
  /\ (exists state',
        Continúa._codegen_impl (Continúa.mk semicolon) default_semicolon state
        = Ok state'
        /\ code state'
           = code state +:+ "continúa" +:+ terminator_text semicolon default_semicolon)
  /\ (exists state',
        Devuelve._codegen_impl (Devuelve.mk (E:=E) None whitespace semicolon)
          default_semicolon state = Ok state'
        /\ code state'
           = code state +:+ "devuelve" +:+ whitespace_text whitespace
             +:+ terminator_text semicolon default_semicolon).
Proof.
  split; [| split]; eexists.
  - split; [apply Rompe_codegen_run |].
    by rewrite code_finish, code_emit, text_of_singleton, String_append_assoc.
  - split; [apply Continua_codegen_run |].
    by rewrite code_finish, code_emit, text_of_singleton, String_append_assoc.
  - split; [by rewrite Devuelve_codegen_run |]. simpl.
    assert (Hgap : text_of ("devuelve" :: gap_tokens whitespace false)
                   = "devuelve" +:+ whitespace_text whitespace).
    { destruct whitespace as [w | m]; [| reflexivity].
      change ("devuelve" +:+ text_of [value w] = "devuelve" +:+ value w).
      by rewrite text_of_singleton. }
    by rewrite code_finish, code_emit, Hgap, !String_append_assoc.
Qed.

(** ** Concrete runs of the further properties *)

Import Logger.
Import Stripper.

Lemma Logger_keeps_whitespace : keeps (V:=list string) SimpleWhitespace.
Proof. intros child visitor. reflexivity. Qed.

Lemma Logger_keeps_atom : keeps (V:=list string) Atom.
Proof. intros child visitor. reflexivity. Qed.

Lemma Logger_keeps_from : keeps (V:=list string) From.
Proof. intros child visitor. reflexivity. Qed.

Lemma Logger_keeps_semicolon : keeps (V:=list string) Semicolon.
Proof. intros child visitor. reflexivity. Qed.

(** X2 at [aumenta x from y]: constructed, and still constructed without the
    cause and with a terminator. *)
Lemma Aumenta_safe_removals_witness :
  succeeds (Aumenta.new (Some (name "x")) (Some (from_ (inr DEFAULT) "y"))
              (ws " ") (inr DEFAULT))
  /\ Aumenta.new (Some (name "x")) (None (A:=From)) (ws " ") semi
     = Ok (Aumenta.mk (Some (name "x")) None (ws " ") semi).
Proof.
  assert (Hnew : succeeds (Aumenta.new (Some (name "x"))
                             (Some (from_ (inr DEFAULT) "y")) (ws " ") (inr DEFAULT)))
    by (eexists; reflexivity).
  split; [exact Hnew |].
  exact (proj1 (proj2 (Aumenta_safe_removals _ _ _ _ semi Hnew))).
Defined.

(** X3 at [devuelve x;]: the logging visitor sees the whitespace, the value
    and the terminator in that order, and the visitor that empties the
    whitespace makes the reconstruction raise. *)
Lemma Devuelve_visit_rebuilds_witness :
  snd (Devuelve._visit_and_replace_children
         (Devuelve.mk (Some (name "x")) (ws " ") semi) ([] : list string))
  = [" "; "x"; ";"]
  /\ Devuelve.new (Some (name "x")) (ws " ") semi
     = Ok (Devuelve.mk (Some (name "x")) (ws " ") semi)
  /\ fst (Devuelve._visit_and_replace_children
            (Devuelve.mk (Some (name "x")) (ws " ") semi) (Stripper.Visits 0))
     = Raise (CSTValidationError "Must have at least one space after 'devuelve'.").
Proof.
  split; [| split; [reflexivity |]].
  - exact (f_equal snd
             (proj1 (Devuelve_visit_rebuilds
                       (Devuelve.mk (Some (name "x")) (ws " ") semi)
                       ([] : list string)))).
  - exact (proj2 (proj2 (proj2 (Devuelve_visit_rebuilds
                                  (Devuelve.mk (Some (name "x")) (ws " ") semi)
                                  (Stripper.Visits 0))))
             (mkSimpleWhitespace " ") (mkSimpleWhitespace "") (name "x") (name "x")
             eq_refl eq_refl eq_refl eq_refl eq_refl eq_refl).
Defined.

(** X5 at [aumenta x from y], visited by the logging visitor. *)
Lemma visit_keeping_children_is_identity_witness :
  let self := Aumenta.mk (Some (name "x")) (Some (from_ (inr DEFAULT) "y"))
                (inr DEFAULT) semi in
  Aumenta._validate self = Ok tt
  /\ fst (Aumenta._visit_and_replace_children self ([] : list string)) = Ok self.
Proof.
  intros self. split; [reflexivity |].
  exact (proj1 (visit_keeping_children_is_identity ([] : list string)
                  Logger_keeps_whitespace Logger_keeps_atom
                  Logger_keeps_from Logger_keeps_semicolon)
           self eq_refl).
Defined.

(** X6 at [devuelve x] with two spaces: the gap is the slot's value and is
    not empty. *)
Lemma keyword_never_glued_witness :
  exists gap,
    gap = "  "
    /\ (_safe_to_use_with_word_operator (name "x") RIGHT = false -> gap <> "")
    /\ Devuelve._codegen_impl (Devuelve.mk (Some (name "x")) (ws "  ") semi) true fresh
       = Result_bind (expression_codegen (name "x") (emit ["devuelve"; gap] fresh))
           (fun body => Ok (finish 0 semi true body)).
Proof.
  exact (proj2 (keyword_never_glued_to_unsafe_expression (F:=From))
           (name "x") (ws "  ") semi _ true fresh eq_refl).
Defined.

(** X7 at a bare [aumenta;]. *)
Lemma bare_Aumenta_renders_alone_witness :
  Aumenta.new (None (A:=Atom)) (None (A:=From)) (inr DEFAULT) semi
  = Ok (Aumenta.mk None None (inr DEFAULT) semi)
  /\ Aumenta._codegen_impl (Aumenta.mk (E:=Atom) (F:=From) None None (inr DEFAULT) semi)
       false fresh
     = Ok {| tokens := ["aumenta"; ""; ";"; " "]; positions := [(0, 1)] |}.
Proof.
  split; [reflexivity |].
  exact (proj2 (bare_Aumenta_renders_alone (E:=Atom) (F:=From) None (inr DEFAULT) semi
                  _ false fresh eq_refl)).
Defined.

(** X8 at [devuelve x] rendered after [rompe; ]. *)
Lemma render_starts_with_keyword_witness :
  let node := SDevuelve (F:=From) (Devuelve.mk (Some (name "x")) (inr DEFAULT)
                                     (inr DEFAULT)) in
  let state := mkCodegenState ["rompe"; "; "] [(0, 1)] in
  let state' := mkCodegenState ["rompe"; "; "; "devuelve"; " "; "x"] [(2, 5); (0, 1)] in
  Statement_codegen_impl node false state = Ok state'
  /\ exists rest, tokens state' = (tokens state ++ "devuelve" :: rest)%list.
Proof.
  intros node state state'.
  assert (Hrun : Statement_codegen_impl node false state = Ok state') by reflexivity.
  split; [exact Hrun |].
  exact (render_starts_with_keyword Atom_append_only From_append_only
           node false state state' Hrun).
Defined.

(** X9 at [devuelve x;]: the span ends before the terminator. *)
Lemma span_excludes_terminator_witness :
  let node := SDevuelve (F:=From) (Devuelve.mk (Some (name "x")) (inr DEFAULT) semi) in
  let state' := mkCodegenState ["devuelve"; " "; "x"; ""; ";"; " "] [(0, 3)] in
  Statement_codegen_impl node false fresh = Ok state'
  /\ exists body,
       tokens state' = (body ++ [""; ";"; " "])%list
       /\ (0, length body) ∈ positions state'.
Proof.
  intros node state'.
  assert (Hrun : Statement_codegen_impl node false fresh = Ok state') by reflexivity.
  split; [exact Hrun |].
  exact (span_excludes_terminator node false fresh state' Hrun).
Defined.
